(** * Habit Tracker: streak engine, date rollover and check-in toggle

    A shallow embedding of [script.js].  The browser is represented by
    explicit values: the system clock is a time value [now] (milliseconds
    since the epoch, UTC), [localStorage] is a record with the two keys the
    script uses, and the in-memory [state] object is a record that every
    operation takes and returns. *)

From Stdlib Require Import ZArith Lia Bool List Ascii String Sorted Permutation.
Import ListNotations.
Local Open Scope string_scope.
Local Open Scope list_scope.
Local Open Scope Z_scope.

(* ================================================================== *)
(** ** The host's [Date] object *)
(* ================================================================== *)

(** Time values are integers (milliseconds, UTC); [None] stands for [NaN],
    the time value of an "Invalid Date".

    Host assumptions, all about the platform and none about [script.js]:
    - [prevDay], the step [d.setDate(d.getDate() - 1)] of the functions
      below, is that of a time zone with a fixed offset from UTC.  The
      step in an arbitrary zone is [setDatePrev], and the functions that
      take it carry the suffix [In]; [setDatePrev_fixed] and
      [calculateStreaksIn_fixed] relate the two;
    - the clock does not advance while one function of the script runs;
    - a string outside the ECMAScript date-time string format is parsed as
      an Invalid Date (the standard leaves it to the engine), and so is a
      day of the month that the month does not have;
    - [toISOString] throws a RangeError on an invalid time value.  The
      script can only get there from a check-in on the first
      representable day, -271821-04-20, that continues a streak; the
      model prints the day before instead, which no entry can match;
    - [localStorage.setItem] succeeds, and [JSON.parse] gives back the
      list that [JSON.stringify] wrote. *)
Module JSDate.

Definition msPerDay : Z := 86400000.
Definition maxTime : Z := 8640000000000000.

Definition isLeap (y : Z) : bool :=
  ((y mod 4 =? 0) && negb (y mod 100 =? 0)) || (y mod 400 =? 0).

Definition DaysInYear (y : Z) : Z := if isLeap y then 366 else 365.

(** Day number (days since 1970-01-01) of January 1st of year [y]. *)
Definition DayFromYear (y : Z) : Z :=
  365 * (y - 1970) + (y - 1969) / 4 - (y - 1901) / 100 + (y - 1601) / 400.

(** The year a day number falls in: an estimate from the mean length of
    a year, corrected by at most one. *)
Definition YearFromDay (day : Z) : Z :=
  let y0 := 1970 + (400 * day) / 146097 in
  if day <? DayFromYear y0 then y0 - 1
  else if DayFromYear (y0 + 1) <=? day then y0 + 1
  else y0.

(** Day within the year (from 0) of the first day of month [m]; month 13
    stands for the first day of the next year. *)
Definition monthStart (leap : bool) (m : Z) : Z :=
  let l := if leap then 1 else 0 in
  match m with
  | 1 => 0 | 2 => 31 | 3 => 59 + l | 4 => 90 + l | 5 => 120 + l
  | 6 => 151 + l | 7 => 181 + l | 8 => 212 + l | 9 => 243 + l
  | 10 => 273 + l | 11 => 304 + l | 12 => 334 + l
  | _ => 365 + l
  end.

Definition DaysInMonth (leap : bool) (m : Z) : Z :=
  monthStart leap (m + 1) - monthStart leap m.

Fixpoint monthSearch (fuel : nat) (leap : bool) (m dayInYear : Z) : Z :=
  match fuel with
  | O => m
  | S k => if dayInYear <? monthStart leap (m + 1) then m
           else monthSearch k leap (m + 1) dayInYear
  end.

Definition MonthFromDayInYear (leap : bool) (dayInYear : Z) : Z :=
  monthSearch 11 leap 1 dayInYear.

Definition MakeDay (y m d : Z) : Z :=
  DayFromYear y + monthStart (isLeap y) m + (d - 1).

(** [Day(t)]: the day number a time value falls in. *)
Definition Day (t : Z) : Z := t / msPerDay.

(** Year, month (1..12) and day of the month of a day number. *)
Definition civil (day : Z) : Z * Z * Z :=
  let y := YearFromDay day in
  let dayInYear := day - DayFromYear y in
  let m := MonthFromDayInYear (isLeap y) dayInYear in
  (y, m, dayInYear - monthStart (isLeap y) m + 1).

Fixpoint forallFrom (n : nat) (i : Z) (p : Z -> bool) : bool :=
  match n with
  | O => true
  | S k => p i && forallFrom k (i + 1) p
  end.

(** *** Decimal fields *)

Definition digitChar (n : Z) : ascii :=
  ascii_of_N (48 + Z.to_N (n mod 10)).

Definition digitVal (c : ascii) : option Z :=
  let n := N_of_ascii c in
  if ((48 <=? n) && (n <=? 57))%N then Some (Z.of_N n - 48) else None.

(** The [w] low decimal digits of [n], most significant first, in front
    of [rest]. *)
Fixpoint putDigits (w : nat) (n : Z) (rest : string) : string :=
  match w with
  | O => rest
  | S k => String (digitChar (n / 10 ^ Z.of_nat k))
                  (putDigits k (n mod 10 ^ Z.of_nat k) rest)
  end.

(** Reads exactly [w] decimal digits. *)
Fixpoint readDigits (w : nat) (acc : Z) (s : string) : option (Z * string) :=
  match w with
  | O => Some (acc, s)
  | S k =>
      match s with
      | String c r =>
          match digitVal c with
          | Some v => readDigits k (10 * acc + v) r
          | None => None
          end
      | EmptyString => None
      end
  end.

(** *** [new Date(string)] on a string without a time part *)

Definition TimeClip (t : Z) : option Z :=
  if Z.abs t <=? maxTime then Some t else None.

(** [YYYY] or an expanded year [+YYYYYY] / [-YYYYYY]; [-000000] is not a
    year. *)
Definition parseYear (s : string) : option (Z * string) :=
  match s with
  | String "+" r => readDigits 6 0 r
  | String "-" r =>
      match readDigits 6 0 r with
      | Some (y, r') => if y =? 0 then None else Some (- y, r')
      | None => None
      end
  | _ => readDigits 4 0 s
  end.

(** What follows the month: nothing or [-DD]. *)
Definition parseDay (y m : Z) (s : string) : option Z :=
  match s with
  | EmptyString => Some (MakeDay y m 1)
  | String "-" r =>
      match readDigits 2 0 r with
      | Some (d, EmptyString) =>
          if (1 <=? d) && (d <=? DaysInMonth (isLeap y) m)
          then Some (MakeDay y m d) else None
      | _ => None
      end
  | _ => None
  end.

(** What follows the year: nothing, [-MM] or [-MM-DD]. *)
Definition parseMonthDay (y : Z) (s : string) : option Z :=
  match s with
  | EmptyString => Some (MakeDay y 1 1)
  | String "-" r =>
      match readDigits 2 0 r with
      | Some (m, r') =>
          if (1 <=? m) && (m <=? 12) then parseDay y m r' else None
      | None => None
      end
  | _ => None
  end.

(** A date-only form is taken as UTC midnight. *)
Definition parse (s : string) : option Z :=
  match parseYear s with
  | Some (y, r) =>
      match parseMonthDay y r with
      | Some day => TimeClip (day * msPerDay)
      | None => None
      end
  | None => None
  end.

(** *** [toISOString] *)

Definition putYear (y : Z) (rest : string) : string :=
  if (0 <=? y) && (y <=? 9999) then putDigits 4 y rest
  else if y <? 0 then String "-" (putDigits 6 (- y) rest)
  else String "+" (putDigits 6 y rest).

Definition putDate (day : Z) (rest : string) : string :=
  let '(y, m, d) := civil day in
  putYear y (String "-" (putDigits 2 m (String "-" (putDigits 2 d rest)))).

(** The text [YYYY-MM-DD] of a day number. *)
Definition isoDay (day : Z) : string := putDate day "".

(** [YYYY-MM-DDTHH:mm:ss.sssZ] *)
Definition toISOString (t : Z) : string :=
  let ms := t mod msPerDay in
  putDate (Day t)
    (String "T" (putDigits 2 (ms / 3600000)
    (String ":" (putDigits 2 (ms / 60000 mod 60)
    (String ":" (putDigits 2 (ms / 1000 mod 60)
    (String "." (putDigits 3 (ms mod 1000) "Z")))))))).


(** [d.setDate(d.getDate() - 1)] in a time zone of fixed offset. *)
Definition prevDay (t : Z) : Z := t - msPerDay.

(** *** Local time *)

(** A time zone: the offset from UTC (local minus UTC, in milliseconds)
    at a UTC time value, and the offset by which a local time value is
    read; a local time that a transition repeats or skips is read with
    the offset before the transition. *)
Record TimeZone := mkTimeZone {
  offsetOfUTC : Z -> Z;
  offsetOfLocal : Z -> Z
}.

Definition LocalTime (zone : TimeZone) (t : Z) : Z := t + offsetOfUTC zone t.

Definition UTC (zone : TimeZone) (local : Z) : Z :=
  local - offsetOfLocal zone local.

(** [d.setDate(d.getDate() - 1)]: the day of the month is taken and set
    in local time, the time within the day stays. *)
Definition setDatePrev (zone : TimeZone) (t : Z) : Z :=
  let local := LocalTime zone t in
  let '(y, m, d) := civil (Day local) in
  UTC zone (MakeDay y m (d - 1) * msPerDay + local mod msPerDay).

Definition fixedOffset (zone : TimeZone) : Prop :=
  exists k, forall t, offsetOfUTC zone t = k /\ offsetOfLocal zone t = k.

(** America/New_York during 2024: five hours behind UTC, four between
    2024-03-10T07:00:00Z and 2024-11-03T06:00:00Z. *)
Definition newYork2024 : TimeZone :=
  let est := -18000000 in
  let edt := -14400000 in
  let spring := 1710054000000 in
  let autumn := 1730613600000 in
  mkTimeZone
    (fun t => if (spring <=? t) && (t <? autumn) then edt else est)
    (fun local =>
       if (spring + edt <=? local) && (local <? autumn + edt)
       then edt else est).

(** *** Ranges *)

Definition validCivil (y m d : Z) : Prop :=
  1 <= m <= 12 /\ 1 <= d <= DaysInMonth (isLeap y) m.

(** The day numbers of the valid time values. *)
Definition dayInRange (day : Z) : Prop := -100000000 <= day <= 100000000.

(** The days of the years 0000 to 9999, which [toISOString] prints with
    four digits. *)
Definition firstDay : Z := MakeDay 0 1 1.
Definition lastDay : Z := MakeDay 9999 12 31.
Definition fourDigit (day : Z) : Prop := firstDay <= day <= lastDay.

End JSDate.

(* ================================================================== *)
(** ** Strings and arrays *)
(* ================================================================== *)

(** [date.split('T')[0]]: the text before the first ['T']. *)
Fixpoint datePart (date : string) : string :=
  match date with
  | EmptyString => EmptyString
  | String c r => if (c =? "T")%char then EmptyString else String c (datePart r)
  end.

(** [a.localeCompare(b)], as the order of the code units.  On calendar
    dates [YYYY-MM-DD] this is the order of every collation; on other
    strings a collation may order differently, or take two different
    strings for equal. *)
Definition localeCompare (a b : string) : comparison := String.compare a b.

(** [a] may stand in front of [b] in an array sorted newest first. *)
Definition notBefore (a b : string) : Prop := localeCompare b a <> Gt.

(** [a] is strictly newer than [b]. *)
Definition newer (a b : string) : Prop := localeCompare a b = Gt.

Definition descending (l : list string) : Prop := StronglySorted newer l.

(** [self.indexOf(x)], with -1 for an absent value. *)
Fixpoint indexOfFrom (i : Z) (self : list string) (x : string) : Z :=
  match self with
  | [] => -1
  | y :: r => if (y =? x)%string then i else indexOfFrom (i + 1) r x
  end.

Definition indexOf (self : list string) (x : string) : Z := indexOfFrom 0 self x.

Definition includes (self : list string) (x : string) : bool :=
  negb (indexOf self x =? -1).

(** [self.filter((x, index) => f x index)] *)
Fixpoint filterIndexed (f : string -> Z -> bool) (i : Z) (l : list string)
  : list string :=
  match l with
  | [] => []
  | x :: r => if f x i then x :: filterIndexed f (i + 1) r
              else filterIndexed f (i + 1) r
  end.

(** [.filter((date, index, self) => self.indexOf(date) === index)] *)
Definition removeDuplicates (self : list string) : list string :=
  filterIndexed (fun date index => indexOf self date =? index) 0 self.

(** [.sort((a, b) => b.localeCompare(a))]: a stable sort, newest first.
    [a] goes in front of [b] when the comparator [b.localeCompare(a)] is
    not positive. *)
Fixpoint insertDesc (a : string) (l : list string) : list string :=
  match l with
  | [] => [a]
  | b :: r =>
      match localeCompare b a with
      | Gt => b :: insertDesc a r
      | _ => a :: b :: r
      end
  end.

Definition sortDesc (l : list string) : list string :=
  fold_right insertDesc [] l.

(** [self.findIndex(p)] *)
Fixpoint findIndex (p : string -> bool) (self : list string) : option nat :=
  match self with
  | [] => None
  | x :: r => if p x then Some O
              else match findIndex p r with
                   | Some i => Some (S i)
                   | None => None
                   end
  end.

(** [self.splice(i, 1)] *)
Fixpoint splice1 (i : nat) (self : list string) : list string :=
  match self, i with
  | [], _ => []
  | _ :: r, O => r
  | x :: r, S k => x :: splice1 k r
  end.

(* ================================================================== *)
(** ** Date utilities *)
(* ================================================================== *)

Definition getTodayDateString (now : Z) : string :=
  datePart (JSDate.toISOString now).

Definition getYesterdayDateString (now : Z) : string :=
  datePart (JSDate.toISOString (JSDate.prevDay now)).

Definition isToday (now : Z) (dateString : string) : bool :=
  (dateString =? getTodayDateString now)%string.

Definition isYesterday (now : Z) (dateString : string) : bool :=
  (dateString =? getYesterdayDateString now)%string.

(** [None] is [NaN]: one of the two strings is an Invalid Date. *)
Definition getDaysDifference (date1 date2 : string) : option Z :=
  match JSDate.parse date1, JSDate.parse date2 with
  | Some d1, Some d2 =>
      let diffTime := Z.abs (d2 - d1) in
      Some (diffTime / (1000 * 60 * 60 * 24))
  | _, _ => None
  end.

(** [daysDiff === n] and [daysDiff > n]; both are false on [NaN]. *)
Definition numEq (x : option Z) (n : Z) : bool :=
  match x with Some v => v =? n | None => false end.

Definition numGt (x : option Z) (n : Z) : bool :=
  match x with Some v => n <? v | None => false end.

(** A calendar date in the canonical form [YYYY-MM-DD]: a string that
    [new Date] reads and that [toISOString] prints back, ten characters
    long (an expanded year takes thirteen). *)
Definition isCalendarDate (s : string) : bool :=
  match JSDate.parse s with
  | Some t =>
      (JSDate.isoDay (JSDate.Day t) =? s)%string
      && (String.length s =? 10)%nat
  | None => false
  end.

(** A check-in is a calendar date, possibly followed by a time part. *)
Definition wellFormedLog (log : list string) : Prop :=
  Forall (fun entry => isCalendarDate (datePart entry) = true) log.

(** The system clock shows a valid time value, and so did it a day ago. *)
Definition clockOk (now : Z) : Prop :=
  - JSDate.maxTime + JSDate.msPerDay <= now <= JSDate.maxTime.

(* ================================================================== *)
(** ** Streak calculation logic *)
(* ================================================================== *)

Record Habit := mkHabit {
  id : string;
  name : string;
  checkIns : list string;
  currentStreak : Z;
  longestStreak : Z;
  createdAt : string
}.

(** The object [{ currentStreak, longestStreak }] that [calculateStreaks]
    returns. *)
Record Streaks := mkStreaks {
  streaks_currentStreak : Z;
  streaks_longestStreak : Z
}.

(** The normalised view of a log. *)
Definition sortedCheckInsOf (log : list string) : list string :=
  sortDesc (removeDuplicates (map datePart log)).

(** The loop [for (let i = 1; ...)] of the current streak, over the entries
    from index 1 on.  Where [daysDiff === 0] holds [checkInDate] is a valid
    date, so the branch [None] of the inner match is never taken. *)
Fixpoint countBackwards (rest : list string) (expectedDate : string)
    (currentStreak : Z) : Z :=
  match rest with
  | [] => currentStreak
  | checkInDate :: rest' =>
      let daysDiff := getDaysDifference checkInDate expectedDate in
      if numEq daysDiff 0 then
        match JSDate.parse checkInDate with
        | Some t =>
            countBackwards rest'
              (datePart (JSDate.toISOString (JSDate.prevDay t)))
              (currentStreak + 1)
        | None => currentStreak
        end
      else currentStreak
  end.

(** The loop of the longest streak from index 1 on; [prevDate] is
    [sortedCheckIns[i - 1]].  The variable [expectedDate] that this loop
    also assigns is never read. *)
Fixpoint scanHistory (prevDate : string) (rest : list string)
    (longestStreak tempStreak : Z) : Z * Z :=
  match rest with
  | [] => (longestStreak, tempStreak)
  | checkInDate :: rest' =>
      let daysDiff := getDaysDifference prevDate checkInDate in
      if numEq daysDiff 1
      then scanHistory checkInDate rest' longestStreak (tempStreak + 1)
      else scanHistory checkInDate rest' (Z.max longestStreak tempStreak) 1
  end.

(** [calculateStreaks] from the sorted array on. *)
Definition streaksOfSorted (now : Z) (sortedCheckIns : list string) : Streaks :=
  match sortedCheckIns with
  | [] => mkStreaks 0 0
  | mostRecentCheckIn :: rest =>
      let currentStreak :=
        if isToday now mostRecentCheckIn
        then countBackwards rest (getYesterdayDateString now) 1
        else 0 in
      let '(longestStreak, tempStreak) :=
        scanHistory mostRecentCheckIn rest 0 1 in
      mkStreaks currentStreak (Z.max longestStreak tempStreak)
  end.

Definition calculateStreaks (now : Z) (habit : Habit) : Streaks :=
  match checkIns habit with
  | [] => mkStreaks 0 0
  | _ :: _ => streaksOfSorted now (sortedCheckInsOf (checkIns habit))
  end.

(** The same in a time zone [zone]: the two places that step a day back
    use [setDatePrev]. *)
Definition getYesterdayDateStringIn (zone : JSDate.TimeZone) (now : Z) : string :=
  datePart (JSDate.toISOString (JSDate.setDatePrev zone now)).

Fixpoint countBackwardsIn (zone : JSDate.TimeZone) (rest : list string)
    (expectedDate : string) (currentStreak : Z) : Z :=
  match rest with
  | [] => currentStreak
  | checkInDate :: rest' =>
      let daysDiff := getDaysDifference checkInDate expectedDate in
      if numEq daysDiff 0 then
        match JSDate.parse checkInDate with
        | Some t =>
            countBackwardsIn zone rest'
              (datePart (JSDate.toISOString (JSDate.setDatePrev zone t)))
              (currentStreak + 1)
        | None => currentStreak
        end
      else currentStreak
  end.

Definition streaksOfSortedIn (zone : JSDate.TimeZone) (now : Z)
    (sortedCheckIns : list string) : Streaks :=
  match sortedCheckIns with
  | [] => mkStreaks 0 0
  | mostRecentCheckIn :: rest =>
      let currentStreak :=
        if isToday now mostRecentCheckIn
        then countBackwardsIn zone rest (getYesterdayDateStringIn zone now) 1
        else 0 in
      let '(longestStreak, tempStreak) :=
        scanHistory mostRecentCheckIn rest 0 1 in
      mkStreaks currentStreak (Z.max longestStreak tempStreak)
  end.

Definition calculateStreaksIn (zone : JSDate.TimeZone) (now : Z) (habit : Habit)
  : Streaks :=
  match checkIns habit with
  | [] => mkStreaks 0 0
  | _ :: _ => streaksOfSortedIn zone now (sortedCheckInsOf (checkIns habit))
  end.

Definition updateStreaks (now : Z) (habit : Habit) : Habit :=
  let streaks := calculateStreaks now habit in
  mkHabit (id habit) (name habit) (checkIns habit)
          (streaks_currentStreak streaks) (streaks_longestStreak streaks)
          (createdAt habit).

(* ================================================================== *)
(** ** localStorage management *)
(* ================================================================== *)

(** The object [state]. *)
Record State := mkState {
  habits : list Habit;
  lastCheckedDate : option string
}.

(** The two keys of [localStorage]; the habit list is kept as the value
    its JSON text stands for. *)
Record LocalStorage := mkLocalStorage {
  habitTrackerData : option (list Habit);
  habitTrackerLastCheckedDate : option string
}.

Record App := mkApp {
  state : State;
  localStorage : LocalStorage
}.

Definition setHabits (app : App) (hs : list Habit) : App :=
  mkApp (mkState hs (lastCheckedDate (state app))) (localStorage app).

Definition loadHabitsFromStorage (now : Z) (app : App) : list Habit :=
  match habitTrackerData (localStorage app) with
  | Some stored => map (updateStreaks now) stored
  | None => []
  end.

Definition saveHabitsToStorage (now : Z) (app : App) : App :=
  let today := getTodayDateString now in
  mkApp (mkState (habits (state app)) (Some today))
        (mkLocalStorage (Some (habits (state app))) (Some today)).

Definition hasDateChanged (now : Z) (app : App) : bool :=
  let today := getTodayDateString now in
  match habitTrackerLastCheckedDate (localStorage app) with
  | None => true
  | Some lastChecked =>
      if (lastChecked =? "")%string then true
      else negb (lastChecked =? today)%string
  end.

(** The body of the [forEach] of [handleDateRollover]: the habit
    afterwards, and whether it set [needsUpdate]. *)
Definition rolloverHabit (now : Z) (habit : Habit) : Habit * bool :=
  let today := getTodayDateString now in
  match checkIns habit with
  | [] => (habit, false)
  | _ :: _ =>
      let sortedCheckIns := sortDesc (map datePart (checkIns habit)) in
      match sortedCheckIns with
      | [] => (habit, false)
      | mostRecentCheckIn :: _ =>
          let daysSinceLastCheckIn := getDaysDifference mostRecentCheckIn today in
          if numGt daysSinceLastCheckIn 1
          then (updateStreaks now habit, true)
          else (habit, false)
      end
  end.

(** [renderHabits] only writes to the page and is left out. *)
Definition handleDateRollover (now : Z) (app : App) : App :=
  let results := map (rolloverHabit now) (habits (state app)) in
  let needsUpdate := existsb snd results in
  let app' := setHabits app (map fst results) in
  if needsUpdate then saveHabitsToStorage now app' else app'.

(** The callback of [setInterval]. *)
Definition periodicCheck (now : Z) (app : App) : App :=
  if hasDateChanged now app then handleDateRollover now app else app.

Definition init (now : Z) (app : App) : App :=
  let app1 := setHabits app (loadHabitsFromStorage now app) in
  if hasDateChanged now app1 then handleDateRollover now app1 else app1.

(* ================================================================== *)
(** ** Habit management *)
(* ================================================================== *)

Definition setCheckIns (habit : Habit) (log : list string) : Habit :=
  mkHabit (id habit) (name habit) log (currentStreak habit)
          (longestStreak habit) (createdAt habit).

(** [toggleCheckIn] on the habit that [find] returned. *)
Definition toggleHabit (now : Z) (habit : Habit) : Habit :=
  let today := getTodayDateString now in
  let todayCheckInIndex :=
    findIndex (fun date => (datePart date =? today)%string) (checkIns habit) in
  let checkIns' :=
    match todayCheckInIndex with
    | Some i => splice1 i (checkIns habit)
    | None =>
        if negb (includes (checkIns habit) today)
        then checkIns habit ++ [today]
        else checkIns habit
    end in
  updateStreaks now (setCheckIns habit checkIns').

(** Applies [f] to the first habit with the given id, as
    [state.habits.find(h => h.id === id)] followed by changes to the
    object found. *)
Fixpoint onFirst (f : Habit -> Habit) (id0 : string) (hs : list Habit)
  : option (list Habit) :=
  match hs with
  | [] => None
  | h :: r =>
      if (id h =? id0)%string then Some (f h :: r)
      else match onFirst f id0 r with
           | Some r' => Some (h :: r')
           | None => None
           end
  end.

Definition toggleCheckIn (now : Z) (id0 : string) (app : App) : App :=
  match onFirst (toggleHabit now) id0 (habits (state app)) with
  | None => app
  | Some hs => saveHabitsToStorage now (setHabits app hs)
  end.

(** The script trims habit names with [String.prototype.trim]; the
    functions below take it as the argument [trim].  A name is refused
    when it is empty or trims to the empty string
    ([!name || !name.trim()]). *)
Definition isBlank (trim : string -> string) (name : string) : bool :=
  (name =? "")%string || (trim name =? "")%string.

(** [createHabit]; [newId] stands for
    [Date.now().toString() + Math.random().toString(36).substr(2, 9)]. *)
Definition createHabit (trim : string -> string) (newId : string) (now : Z)
    (name : string) : Habit :=
  mkHabit newId (trim name) [] 0 0 (JSDate.toISOString now).

Definition addHabit (trim : string -> string) (newId : string) (now : Z)
    (name : string) (app : App) : App :=
  if isBlank trim name then app
  else
    let habit := createHabit trim newId now name in
    saveHabitsToStorage now (setHabits app (habits (state app) ++ [habit])).

Definition setName (habit : Habit) (newName : string) : Habit :=
  mkHabit (id habit) newName (checkIns habit) (currentStreak habit)
          (longestStreak habit) (createdAt habit).

Definition updateHabit (trim : string -> string) (now : Z) (id0 newName : string)
    (app : App) : App :=
  if isBlank trim newName then app
  else
    match onFirst (fun habit => setName habit (trim newName)) id0
                  (habits (state app)) with
    | Some hs => saveHabitsToStorage now (setHabits app hs)
    | None => app
    end.

Definition deleteHabit (now : Z) (id0 : string) (app : App) : App :=
  saveHabitsToStorage now
    (setHabits app
       (filter (fun h => negb (id h =? id0)%string) (habits (state app)))).

(* ================================================================== *)
(** ** DOM rendering: the values a habit card shows *)
(* ================================================================== *)

(** [isCheckedInToday] of [createHabitCard] *)
Definition isCheckedInToday (now : Z) (habit : Habit) : bool :=
  existsb (fun date => (datePart date =? getTodayDateString now)%string)
          (checkIns habit).

(** [lastCheckInDate] of [createHabitCard]: [sortedCheckIns[0] || 'Never'],
    where an empty string counts as absent. *)
Definition lastCheckInDate (habit : Habit) : string :=
  match sortDesc (map datePart (checkIns habit)) with
  | [] => "Never"
  | first :: _ => if (first =? "")%string then "Never" else first
  end.

(** [formatDateDisplay]; [toLocaleDateString] stands for the formatting
    of the last branch. *)
Definition formatDateDisplay (toLocaleDateString : string -> string) (now : Z)
    (dateString : string) : string :=
  if (dateString =? "Never")%string then "Never"
  else if isToday now dateString then "Today"
  else if isYesterday now dateString then "Yesterday"
  else toLocaleDateString dateString.

(* ================================================================== *)
(** ** Arrays as objects *)
(* ================================================================== *)

(** The same streak calculation with the arrays in a store, to tell the
    methods that build a new array ([...a], [map], [filter]) from
    [sort], which reorders the array it is called on. *)
Module Heap.

Definition ref := nat.
Definition Store := list (list string).
Definition M (A : Type) : Type := Store -> A * Store.

Definition ret {A} (a : A) : M A := fun s => (a, s).
Definition bind {A B} (m : M A) (k : A -> M B) : M B :=
  fun s => let '(a, s') := m s in k a s'.

Notation "x <- m ;; k" := (bind m (fun x => k))
  (at level 61, m at next level, right associativity).

Definition alloc (a : list string) : M ref :=
  fun s => (List.length s, s ++ [a]).

Definition read (r : ref) : M (list string) :=
  fun s => (nth r s [], s).

Fixpoint setNth (r : ref) (a : list string) (s : Store) : Store :=
  match s, r with
  | [], _ => []
  | _ :: t, O => a :: t
  | x :: t, S k => x :: setNth k a t
  end.

Definition write (r : ref) (a : list string) : M unit :=
  fun s => (tt, setNth r a s).

(** [[...a]] *)
Definition spread (r : ref) : M ref := a <- read r ;; alloc a.

(** [a.map(f)] *)
Definition mapArray (f : string -> string) (r : ref) : M ref :=
  a <- read r ;; alloc (map f a).

(** [a.filter((date, index, self) => self.indexOf(date) === index)] *)
Definition filterFirst (r : ref) : M ref :=
  a <- read r ;; alloc (removeDuplicates a).

(** [a.sort((x, y) => y.localeCompare(x))]: in place, returns [a]. *)
Definition sortInPlace (r : ref) : M ref :=
  a <- read r ;; _ <- write r (sortDesc a) ;; ret r.

(** A habit object whose [checkIns] is a reference to an array. *)
Record HabitObject := mkHabitObject {
  o_id : string;
  o_name : string;
  o_checkIns : ref;
  o_currentStreak : Z;
  o_longestStreak : Z;
  o_createdAt : string
}.

Definition calculateStreaks (now : Z) (habit : HabitObject) : M Streaks :=
  log <- read (o_checkIns habit) ;;
  match log with
  | [] => ret (mkStreaks 0 0)
  | _ :: _ =>
      copy <- spread (o_checkIns habit) ;;
      dates <- mapArray datePart copy ;;
      unique <- filterFirst dates ;;
      sortedRef <- sortInPlace unique ;;
      sortedCheckIns <- read sortedRef ;;
      ret (streaksOfSorted now sortedCheckIns)
  end.

Definition updateStreaks (now : Z) (habit : HabitObject) : M HabitObject :=
  streaks <- calculateStreaks now habit ;;
  ret (mkHabitObject (o_id habit) (o_name habit) (o_checkIns habit)
         (streaks_currentStreak streaks) (streaks_longestStreak streaks)
         (o_createdAt habit)).

(** The habit an object stands for in a store. *)
Definition valueOf (s : Store) (habit : HabitObject) : Habit :=
  mkHabit (o_id habit) (o_name habit) (nth (o_checkIns habit) s [])
          (o_currentStreak habit) (o_longestStreak habit) (o_createdAt habit).

End Heap.

(* ================================================================== *)
(** ** Vocabulary of the statements *)
(* ================================================================== *)

(** The log has a check-in on the day with number [day]. *)
Definition checkedIn (log : list string) (day : Z) : Prop :=
  In (JSDate.isoDay day) (map datePart log).

(** The [n] days from [first] on all have a check-in. *)
Definition consecutiveRun (log : list string) (first n : Z) : Prop :=
  forall i, 0 <= i < n -> checkedIn log (first + i).

(** [sorted] lists the days of the log once each, the most recent first. *)
Definition newestFirst (log sorted : list string) : Prop :=
  exists days,
    sorted = map JSDate.isoDay days /\
    StronglySorted (fun a b => b < a) days /\
    forall day, In day days <-> checkedIn log day.

(** A run within a set of days, and what the loop of the longest streak
    keeps true of the days it has seen: [prev] is the least of them, [T]
    is the length of the run from [prev] on, [L] is the length of some
    run, and no run is longer than both. *)
Definition runIn (S : Z -> Prop) (a n : Z) : Prop :=
  forall i, 0 <= i < n -> S (a + i).

Record scanInv (S : Z -> Prop) (prev L T : Z) : Prop := {
  inv_least : S prev /\ forall x, S x -> prev <= x;
  inv_run : 1 <= T /\ runIn S prev T;
  inv_run_max : forall n, runIn S prev n -> n <= T;
  inv_best : 0 <= L /\ (L = 0 \/ exists a, runIn S a L);
  inv_bound : forall a n, runIn S a n -> n <= Z.max L T
}.

(** The two logs name the same calendar dates. *)
Definition sameDates (log1 log2 : list string) : Prop :=
  forall d, In d (map datePart log1) <-> In d (map datePart log2).

(** At most one entry per calendar date. *)
Definition oneEntryPerDate (log : list string) : Prop :=
  NoDup (map datePart log).

(** The stored streaks of a habit are those of its log today. *)
Definition streaksUpToDate (now : Z) (habit : Habit) : Prop :=
  currentStreak habit = streaks_currentStreak (calculateStreaks now habit) /\
  longestStreak habit = streaks_longestStreak (calculateStreaks now habit).

(** The rollover handler takes the habit for one to recalculate. *)
Definition needsUpdate (now : Z) (habit : Habit) : bool :=
  snd (rolloverHabit now habit).

(* ================================================================== *)
(** ** Sample data *)
(* ================================================================== *)

(** One minute past midnight (UTC) on 2024-01-16. *)
Definition jan16 : Z := 1705363260000.

(** A habit checked in on the 14th and the 15th, with the streaks that
    [calculateStreaks] gave it on the 15th. *)
Definition readingHabit : Habit :=
  mkHabit "h1" "Read" ["2024-01-14"; "2024-01-15"] 2 2
          "2024-01-14T08:00:00.000Z".

(** The application as the 15th left it. *)
Definition eveningApp : App :=
  mkApp (mkState [readingHabit] (Some "2024-01-15"))
        (mkLocalStorage (Some [readingHabit]) (Some "2024-01-15")).

(** The application with no habits, last saved on the 15th. *)
Definition emptyApp : App :=
  mkApp (mkState [] (Some "2024-01-15"))
        (mkLocalStorage (Some []) (Some "2024-01-15")).

(** 2024-03-10T23:30:00Z, the evening in New York of the day the clocks
    went forward, and 2024-11-05T12:00:00Z, two days after they went
    back. *)
Definition march10 : Z := 1710113400000.
Definition november5 : Z := 1730808000000.

Definition habitWithLog (log : list string) : Habit :=
  mkHabit "h" "Habit" log 0 0 "2024-01-01T00:00:00.000Z".

(* ================================================================== *)
(** * Proofs *)
(* ================================================================== *)

Module JSDateFacts.
Import JSDate.

(** *** Years *)

Lemma YearFromDay_spec day :
  DayFromYear (YearFromDay day) <= day < DayFromYear (YearFromDay day + 1).
Proof.
  unfold YearFromDay.
  destruct (Z.ltb_spec day (DayFromYear (1970 + 400 * day / 146097))) as [H|H].
  - unfold DayFromYear in *. Z.to_euclidean_division_equations. lia.
  - destruct (Z.leb_spec (DayFromYear (1970 + 400 * day / 146097 + 1)) day) as [H'|H'].
    + unfold DayFromYear in *. Z.to_euclidean_division_equations. lia.
    + lia.
Qed.

Lemma DayFromYear_step y : DayFromYear y + 365 <= DayFromYear (y + 1) <= DayFromYear y + 366.
Proof. unfold DayFromYear. Z.to_euclidean_division_equations. lia. Qed.

Lemma DayFromYear_lt y y' : y < y' -> DayFromYear (y + 1) <= DayFromYear y'.
Proof.
  intros H. unfold DayFromYear. Z.to_euclidean_division_equations. lia.
Qed.

Lemma DayFromYear_mono y y' : y <= y' -> DayFromYear y <= DayFromYear y'.
Proof.
  intros H. unfold DayFromYear. Z.to_euclidean_division_equations. lia.
Qed.

Lemma year_unique y day :
  DayFromYear y <= day < DayFromYear (y + 1) -> YearFromDay day = y.
Proof.
  intros H. pose proof (YearFromDay_spec day) as S.
  destruct (Z.lt_trichotomy (YearFromDay day) y) as [L|[E|G]]; [|exact E|].
  - apply DayFromYear_lt in L. lia.
  - apply DayFromYear_lt in G. lia.
Qed.

(** A bounded universal check, for the facts that are periodic in the
    400-year cycle. *)
Lemma forallFrom_spec n i p :
  forallFrom n i p = true ->
  forall z, i <= z < i + Z.of_nat n -> p z = true.
Proof.
  revert i. induction n as [|k IH]; intros i H z Hz; [lia|].
  simpl in H. apply andb_prop in H as [H1 H2].
  destruct (Z.eq_dec z i) as [->|]; [exact H1|].
  apply (IH (i + 1)); [exact H2|lia].
Qed.

Lemma DayFromYear_cycle q r : DayFromYear (400 * q + r) = 146097 * q + DayFromYear r.
Proof.
  unfold DayFromYear.
  replace (400 * q + r - 1969) with (r - 1969 + (100 * q) * 4) by ring.
  replace (400 * q + r - 1901) with (r - 1901 + (4 * q) * 100) by ring.
  replace (400 * q + r - 1601) with (r - 1601 + q * 400) by ring.
  rewrite !Z.div_add by lia. ring.
Qed.

Lemma isLeap_cycle q r : isLeap (400 * q + r) = isLeap r.
Proof.
  unfold isLeap.
  replace (400 * q + r) with (r + (100 * q) * 4) at 1 by ring.
  replace (400 * q + r) with (r + (4 * q) * 100) at 1 by ring.
  replace (400 * q + r) with (r + q * 400) at 1 by ring.
  now rewrite !Z.mod_add by lia.
Qed.

Lemma DayFromYear_succ y : DayFromYear (y + 1) = DayFromYear y + DaysInYear y.
Proof.
  unfold DaysInYear.
  rewrite (Z.div_mod y 400) at 1 2 3 by lia.
  replace (400 * (y / 400) + y mod 400 + 1)
    with (400 * (y / 400) + (y mod 400 + 1)) by ring.
  rewrite !DayFromYear_cycle, isLeap_cycle.
  assert (H : 0 <= y mod 400 < 0 + Z.of_nat 400) by (pose proof (Z.mod_pos_bound y 400); lia).
  assert (C : forallFrom 400 0 (fun r =>
            DayFromYear (r + 1) =? DayFromYear r + (if isLeap r then 366 else 365)) = true)
    by (vm_compute; reflexivity).
  pose proof (forallFrom_spec _ _ _ C _ H) as E. simpl in E.
  apply Z.eqb_eq in E. lia.
Qed.

(** *** Months *)

Lemma month_spec leap dayInYear :
  0 <= dayInYear < monthStart leap 13 ->
  let m := MonthFromDayInYear leap dayInYear in
  1 <= m <= 12 /\ monthStart leap m <= dayInYear < monthStart leap (m + 1).
Proof.
  intros H. unfold MonthFromDayInYear. cbn [monthSearch].
  repeat match goal with
  | |- context [if ?a <? ?b then _ else _] =>
      destruct (Z.ltb_spec a b)
  end; cbv zeta; destruct leap; cbn in *; lia.
Qed.

Lemma month_unique leap m dayInYear :
  1 <= m <= 12 -> monthStart leap m <= dayInYear < monthStart leap (m + 1) ->
  MonthFromDayInYear leap dayInYear = m.
Proof.
  intros Hm H.
  assert (M : m = 1 \/ m = 2 \/ m = 3 \/ m = 4 \/ m = 5 \/ m = 6 \/ m = 7 \/
              m = 8 \/ m = 9 \/ m = 10 \/ m = 11 \/ m = 12) by lia.
  unfold MonthFromDayInYear. cbn [monthSearch].
  repeat match goal with
  | |- context [if ?a <? ?b then _ else _] =>
      destruct (Z.ltb_spec a b)
  end; destruct leap; 
  repeat (destruct M as [->|M]; [cbn in *; lia|]); subst m; cbn in *; lia.
Qed.

Lemma monthStart_mono leap m m' :
  1 <= m -> m < m' -> m' <= 13 -> monthStart leap (m + 1) <= monthStart leap m'.
Proof.
  intros H1 H2 H3.
  assert (M : m = 1 \/ m = 2 \/ m = 3 \/ m = 4 \/ m = 5 \/ m = 6 \/ m = 7 \/
              m = 8 \/ m = 9 \/ m = 10 \/ m = 11 \/ m = 12) by lia.
  assert (M' : m' = 2 \/ m' = 3 \/ m' = 4 \/ m' = 5 \/ m' = 6 \/ m' = 7 \/
              m' = 8 \/ m' = 9 \/ m' = 10 \/ m' = 11 \/ m' = 12 \/ m' = 13) by lia.
  destruct leap;
  repeat (destruct M as [->|M]); subst;
  repeat (destruct M' as [->|M']); subst; cbn; lia.
Qed.

Lemma DaysInMonth_bounds leap m : 1 <= m <= 12 -> 28 <= DaysInMonth leap m <= 31.
Proof.
  intros H.
  assert (M : m = 1 \/ m = 2 \/ m = 3 \/ m = 4 \/ m = 5 \/ m = 6 \/ m = 7 \/
              m = 8 \/ m = 9 \/ m = 10 \/ m = 11 \/ m = 12) by lia.
  destruct leap; repeat (destruct M as [->|M]); subst; cbn; lia.
Qed.

Lemma monthStart_13 y : monthStart (isLeap y) 13 = DaysInYear y.
Proof. unfold DaysInYear. destruct (isLeap y); reflexivity. Qed.

(** *** Day numbers and civil dates *)

Lemma civil_spec day y m d :
  civil day = (y, m, d) -> validCivil y m d /\ MakeDay y m d = day.
Proof.
  unfold civil. intros E. injection E as <- <- <-.
  pose proof (YearFromDay_spec day) as Y.
  rewrite DayFromYear_succ in Y.
  set (y := YearFromDay day) in *.
  assert (R : 0 <= day - DayFromYear y < monthStart (isLeap y) 13)
    by (rewrite monthStart_13; lia).
  pose proof (month_spec _ _ R) as [M1 M2]. cbv zeta in *.
  unfold validCivil, DaysInMonth, MakeDay. lia.
Qed.

Lemma MakeDay_bounds y m d :
  validCivil y m d -> DayFromYear y <= MakeDay y m d < DayFromYear (y + 1).
Proof.
  intros [Hm Hd]. unfold MakeDay, DaysInMonth in *.
  rewrite DayFromYear_succ, <- monthStart_13.
  assert (monthStart (isLeap y) (m + 1) <= monthStart (isLeap y) 13).
  { destruct (Z.eq_dec m 12) as [->|]; [simpl; lia|].
    apply Z.le_trans with (monthStart (isLeap y) (m + 1 + 1)).
    - pose proof (DaysInMonth_bounds (isLeap y) (m + 1)). unfold DaysInMonth in *. lia.
    - apply monthStart_mono; lia. }
  assert (0 <= monthStart (isLeap y) m).
  { assert (M : m = 1 \/ m = 2 \/ m = 3 \/ m = 4 \/ m = 5 \/ m = 6 \/ m = 7 \/
              m = 8 \/ m = 9 \/ m = 10 \/ m = 11 \/ m = 12) by lia.
    destruct (isLeap y); repeat (destruct M as [->|M]); subst; cbn; lia. }
  lia.
Qed.

Lemma civil_MakeDay y m d :
  validCivil y m d -> civil (MakeDay y m d) = (y, m, d).
Proof.
  intros V. pose proof (MakeDay_bounds _ _ _ V) as B.
  unfold civil. rewrite (year_unique y) by exact B.
  destruct V as [Hm Hd]. unfold DaysInMonth in Hd.
  rewrite (month_unique _ m) by (unfold MakeDay; lia).
  unfold MakeDay. repeat f_equal. lia.
Qed.

(** Day numbers grow with the civil date, read as year, month, day. *)
Lemma MakeDay_lt y m d y' m' d' :
  validCivil y m d -> validCivil y' m' d' ->
  y < y' \/ (y = y' /\ (m < m' \/ (m = m' /\ d < d'))) ->
  MakeDay y m d < MakeDay y' m' d'.
Proof.
  intros V V' [L|[-> [L|[-> L]]]].
  - pose proof (MakeDay_bounds _ _ _ V). pose proof (MakeDay_bounds _ _ _ V').
    apply DayFromYear_lt in L. lia.
  - destruct V as [Hm Hd], V' as [Hm' Hd']. unfold MakeDay, DaysInMonth in *.
    pose proof (monthStart_mono (isLeap y') m m'). lia.
  - unfold MakeDay. lia.
Qed.

Lemma year_range day :
  -100000001 <= day <= 100000000 -> -271821 <= YearFromDay day <= 275760.
Proof.
  intros H. pose proof (YearFromDay_spec day) as S.
  split.
  - destruct (Z.le_gt_cases (-271821) (YearFromDay day)) as [|G]; [assumption|].
    assert (L : YearFromDay day + 1 <= -271821) by lia.
    apply DayFromYear_mono in L. vm_compute (DayFromYear (-271821)) in L. lia.
  - destruct (Z.le_gt_cases (YearFromDay day) 275760) as [|G]; [assumption|].
    assert (L : 275761 <= YearFromDay day) by lia.
    apply DayFromYear_mono in L. vm_compute (DayFromYear 275761) in L. lia.
Qed.

End JSDateFacts.

(** ** The order of [localeCompare] *)

Lemma ascii_compare_refl c : Ascii.compare c c = Eq.
Proof. apply N.compare_refl. Qed.

Lemma localeCompare_refl s : localeCompare s s = Eq.
Proof.
  unfold localeCompare. induction s as [|c s IH]; [reflexivity|].
  simpl. now rewrite ascii_compare_refl.
Qed.

Lemma localeCompare_eq a b : localeCompare a b = Eq -> a = b.
Proof. apply String.compare_eq_iff. Qed.

Lemma localeCompare_antisym a b : localeCompare a b = CompOpp (localeCompare b a).
Proof. apply String.compare_antisym. Qed.

Lemma localeCompare_Gt_Lt a b : localeCompare a b = Gt <-> localeCompare b a = Lt.
Proof.
  rewrite (localeCompare_antisym a b).
  destruct (localeCompare b a); simpl; split; congruence.
Qed.

Lemma localeCompare_trans a : forall b c,
  localeCompare a b = Lt -> localeCompare b c = Lt -> localeCompare a c = Lt.
Proof.
  unfold localeCompare.
  induction a as [|x a IH]; intros [|y b] [|z c]; simpl; try congruence.
  unfold Ascii.compare.
  destruct (N.compare_spec (N_of_ascii x) (N_of_ascii y)) as [E|L|G]; try discriminate.
  - rewrite E. destruct (N.compare_spec (N_of_ascii y) (N_of_ascii z)); try discriminate.
    + apply IH.
    + reflexivity.
  - intros _.
    destruct (N.compare_spec (N_of_ascii y) (N_of_ascii z)) as [E|L'|G]; try discriminate.
    + intros _. rewrite <- E. now apply N.compare_lt_iff in L as ->.
    + intros _. assert (N_of_ascii x < N_of_ascii z)%N as ->%N.compare_lt_iff by lia.
      reflexivity.
Qed.

Module JSDateText.
Import JSDate JSDateFacts.

Lemma digit_cases n :
  let r := n mod 10 in
  r = 0 \/ r = 1 \/ r = 2 \/ r = 3 \/ r = 4 \/ r = 5 \/ r = 6 \/ r = 7 \/ r = 8 \/ r = 9.
Proof. cbv zeta. pose proof (Z.mod_pos_bound n 10). lia. Qed.

Ltac each_digit n :=
  unfold digitChar;
  let H := fresh "D" in
  pose proof (digit_cases n) as H; cbv zeta in H;
  repeat (destruct H as [H|H]; [rewrite H|]); try rewrite H.

Lemma digitVal_digitChar n : digitVal (digitChar n) = Some (n mod 10).
Proof. each_digit n; reflexivity. Qed.

Lemma digitChar_not_T n : (digitChar n =? "T")%char = false.
Proof. each_digit n; reflexivity. Qed.

Lemma digitChar_code n : N_of_ascii (digitChar n) = (48 + Z.to_N (n mod 10))%N.
Proof. each_digit n; reflexivity. Qed.

Lemma digitChar_small n : 0 <= n < 10 -> digitChar n = digitChar (n mod 10).
Proof. intros H. now rewrite Z.mod_small. Qed.

Lemma compare_digitChar a b :
  0 <= a < 10 -> 0 <= b < 10 ->
  Ascii.compare (digitChar a) (digitChar b) = (a ?= b).
Proof.
  intros Ha Hb. unfold Ascii.compare. rewrite !digitChar_code.
  rewrite !Z.mod_small by assumption.
  rewrite <- N2Z.inj_compare, !N2Z.inj_add, !Z2N.id by lia.
  apply Z.add_compare_mono_l.
Qed.

Lemma pow10_pos k : 0 < 10 ^ Z.of_nat k.
Proof. apply Z.pow_pos_nonneg; lia. Qed.

Lemma pow10_succ k : 10 ^ Z.of_nat (S k) = 10 * 10 ^ Z.of_nat k.
Proof. rewrite Nat2Z.inj_succ, Z.pow_succ_r by lia. reflexivity. Qed.

Lemma lead_digit k n :
  0 <= n < 10 ^ Z.of_nat (S k) -> 0 <= n / 10 ^ Z.of_nat k < 10.
Proof.
  intros H. rewrite pow10_succ in H. pose proof (pow10_pos k) as P.
  split.
  - apply Z.div_pos; lia.
  - apply Z.div_lt_upper_bound; lia.
Qed.

Lemma readDigits_putDigits w : forall n acc rest,
  0 <= n < 10 ^ Z.of_nat w ->
  readDigits w acc (putDigits w n rest) = Some (acc * 10 ^ Z.of_nat w + n, rest).
Proof.
  induction w as [|k IH]; intros n acc rest H.
  - simpl in *. do 2 f_equal. lia.
  - cbn [putDigits readDigits]. rewrite digitVal_digitChar.
    pose proof (lead_digit k n H) as L. pose proof (pow10_pos k) as P.
    rewrite (Z.mod_small _ 10) by exact L.
    rewrite IH by (apply Z.mod_pos_bound; exact P).
    rewrite pow10_succ. do 2 f_equal.
    rewrite (Z.div_mod n (10 ^ Z.of_nat k)) at 3 by lia. ring.
Qed.

Lemma datePart_putDigits w : forall n rest,
  datePart (putDigits w n rest) = putDigits w n (datePart rest).
Proof.
  induction w as [|k IH]; intros n rest; [reflexivity|].
  cbn [putDigits datePart]. rewrite digitChar_not_T, IH. reflexivity.
Qed.

Lemma compare_putDigits w : forall a b r1 r2,
  0 <= a < 10 ^ Z.of_nat w -> 0 <= b < 10 ^ Z.of_nat w ->
  String.compare (putDigits w a r1) (putDigits w b r2) =
  match a ?= b with Eq => String.compare r1 r2 | c => c end.
Proof.
  induction w as [|k IH]; intros a b r1 r2 Ha Hb.
  - simpl in *. replace a with 0 by lia. replace b with 0 by lia. reflexivity.
  - cbn [putDigits String.compare].
    pose proof (lead_digit k a Ha) as La. pose proof (lead_digit k b Hb) as Lb.
    pose proof (pow10_pos k) as P.
    rewrite compare_digitChar by assumption.
    pose proof (Z.mod_pos_bound a _ P) as Ra. pose proof (Z.mod_pos_bound b _ P) as Rb.
    assert (Ea := Z.div_mod a (10 ^ Z.of_nat k) ltac:(lia)).
    assert (Eb := Z.div_mod b (10 ^ Z.of_nat k) ltac:(lia)).
    destruct (Z.compare_spec (a / 10 ^ Z.of_nat k) (b / 10 ^ Z.of_nat k)) as [E|L|L].
    + rewrite IH by assumption.
      replace (a ?= b) with (a mod 10 ^ Z.of_nat k ?= b mod 10 ^ Z.of_nat k); [reflexivity|].
      destruct (Z.compare_spec (a mod 10 ^ Z.of_nat k) (b mod 10 ^ Z.of_nat k));
        symmetry; [apply Z.compare_eq_iff|apply Z.compare_lt_iff|apply Z.compare_gt_iff]; nia.
    + assert (a < b) as ->%Z.compare_lt_iff by nia. reflexivity.
    + assert (b < a) as ->%Z.compare_gt_iff by nia. reflexivity.
Qed.

(** *** Parsing what [toISOString] prints *)

Lemma parseYear_digit n rest :
  parseYear (String (digitChar n) rest) = readDigits 4 0 (String (digitChar n) rest).
Proof. each_digit n; reflexivity. Qed.

Lemma parseYear_plus r : parseYear (String "+" r) = readDigits 6 0 r.
Proof. reflexivity. Qed.

Lemma parseYear_minus r :
  parseYear (String "-" r) =
  match readDigits 6 0 r with
  | Some (y, r') => if y =? 0 then None else Some (- y, r')
  | None => None
  end.
Proof. reflexivity. Qed.

Lemma parseYear_putYear y rest :
  -999999 <= y <= 999999 -> parseYear (putYear y rest) = Some (y, rest).
Proof.
  intros H. unfold putYear.
  destruct (Z.leb_spec 0 y) as [P|N]; cbn [andb].
  - destruct (Z.leb_spec y 9999) as [S|L].
    + change (putDigits 4 y rest) with
        (String (digitChar (y / 10 ^ Z.of_nat 3)) (putDigits 3 (y mod 10 ^ Z.of_nat 3) rest)).
      rewrite parseYear_digit.
      change (String (digitChar (y / 10 ^ Z.of_nat 3)) (putDigits 3 (y mod 10 ^ Z.of_nat 3) rest))
        with (putDigits 4 y rest).
      rewrite readDigits_putDigits by (change (10 ^ Z.of_nat 4) with 10000; lia).
      reflexivity.
    + destruct (Z.ltb_spec y 0); [lia|].
      rewrite parseYear_plus.
      rewrite readDigits_putDigits by (change (10 ^ Z.of_nat 6) with 1000000; lia).
      reflexivity.
  - destruct (Z.ltb_spec y 0); [|lia].
    rewrite parseYear_minus.
    rewrite readDigits_putDigits by (change (10 ^ Z.of_nat 6) with 1000000; lia).
    cbn [Z.mul Z.add]. destruct (Z.eqb_spec (- y) 0); [lia|].
    now rewrite Z.opp_involutive.
Qed.

Lemma parseMonthDay_hyphen y r :
  parseMonthDay y (String "-" r) =
  match readDigits 2 0 r with
  | Some (m, r') =>
      if (1 <=? m) && (m <=? 12) then parseDay y m r' else None
  | None => None
  end.
Proof. reflexivity. Qed.

Lemma parseDay_hyphen y m r :
  parseDay y m (String "-" r) =
  match readDigits 2 0 r with
  | Some (d, EmptyString) =>
      if (1 <=? d) && (d <=? DaysInMonth (isLeap y) m)
      then Some (MakeDay y m d) else None
  | _ => None
  end.
Proof. reflexivity. Qed.

Lemma parseMonthDay_put y m d :
  validCivil y m d ->
  parseMonthDay y (String "-" (putDigits 2 m (String "-" (putDigits 2 d ""))))
  = Some (MakeDay y m d).
Proof.
  intros [Hm Hd]. pose proof (DaysInMonth_bounds (isLeap y) m Hm) as B.
  rewrite parseMonthDay_hyphen.
  rewrite readDigits_putDigits by (change (10 ^ Z.of_nat 2) with 100; lia).
  cbn [Z.mul Z.add].
  destruct (Z.leb_spec 1 m); [|lia]. destruct (Z.leb_spec m 12); [|lia]. cbn [andb].
  rewrite parseDay_hyphen.
  rewrite readDigits_putDigits by (change (10 ^ Z.of_nat 2) with 100; lia).
  cbn [Z.mul Z.add].
  destruct (Z.leb_spec 1 d); [|lia].
  destruct (Z.leb_spec d (DaysInMonth (isLeap y) m)); [|lia]. reflexivity.
Qed.

Lemma parse_isoDay day :
  dayInRange day -> parse (isoDay day) = Some (day * msPerDay).
Proof.
  intros R. unfold isoDay, putDate, parse.
  destruct (civil day) as [[y m] d] eqn:C.
  apply civil_spec in C as [V E].
  assert (Y : -271821 <= y <= 275760).
  { pose proof (year_range day ltac:(unfold dayInRange in R; lia)) as YR.
    pose proof (MakeDay_bounds _ _ _ V) as MB. rewrite E in MB.
    now rewrite (year_unique y day MB) in YR. }
  rewrite parseYear_putYear by lia.
  rewrite parseMonthDay_put by exact V. rewrite E.
  unfold TimeClip, msPerDay, maxTime. unfold dayInRange in R.
  destruct (Z.leb_spec (Z.abs (day * 86400000)) 8640000000000000); [reflexivity|lia].
Qed.

(** *** The date part of [toISOString] *)

Lemma datePart_hyphen r : datePart (String "-" r) = String "-" (datePart r).
Proof. reflexivity. Qed.

Lemma datePart_plus r : datePart (String "+" r) = String "+" (datePart r).
Proof. reflexivity. Qed.

Lemma datePart_putYear y rest : datePart (putYear y rest) = putYear y (datePart rest).
Proof.
  unfold putYear.
  destruct ((0 <=? y) && (y <=? 9999)); [apply datePart_putDigits|].
  destruct (y <? 0); rewrite ?datePart_hyphen, ?datePart_plus;
    now rewrite datePart_putDigits.
Qed.

Lemma datePart_putDate day rest : datePart (putDate day rest) = putDate day (datePart rest).
Proof.
  unfold putDate. destruct (civil day) as [[y m] d].
  rewrite datePart_putYear, datePart_hyphen, datePart_putDigits,
    datePart_hyphen, datePart_putDigits.
  reflexivity.
Qed.

Lemma datePart_toISOString t : datePart (toISOString t) = isoDay (Day t).
Proof. unfold toISOString, isoDay. now rewrite datePart_putDate. Qed.

Lemma datePart_isoDay day : datePart (isoDay day) = isoDay day.
Proof. unfold isoDay. now rewrite datePart_putDate. Qed.

Lemma Day_prevDay t : Day (prevDay t) = Day t - 1.
Proof.
  unfold Day, prevDay, msPerDay.
  replace (t - 86400000) with (t + (-1) * 86400000) by ring.
  rewrite Z.div_add by lia. ring.
Qed.

Lemma Day_midnight day : Day (day * msPerDay) = day.
Proof. unfold Day, msPerDay. apply Z.div_mul. lia. Qed.

(** *** Calendar dates of four-digit years: text order is date order *)

Lemma firstDay_value : firstDay = -719528.
Proof. reflexivity. Qed.

Lemma lastDay_value : lastDay = 2932896.
Proof. reflexivity. Qed.

Lemma fourDigitYear day :
  firstDay <= day <= lastDay -> 0 <= YearFromDay day <= 9999.
Proof.
  intros [L U]. pose proof (YearFromDay_spec day) as S. split.
  - destruct (Z.le_gt_cases 0 (YearFromDay day)) as [|G]; [assumption|].
    assert (M : YearFromDay day + 1 <= 0) by lia.
    apply DayFromYear_mono in M. rewrite firstDay_value in L. vm_compute (DayFromYear 0) in M. lia.
  - destruct (Z.le_gt_cases (YearFromDay day) 9999) as [|G]; [assumption|].
    assert (M : 10000 <= YearFromDay day) by lia.
    apply DayFromYear_mono in M. rewrite lastDay_value in U. vm_compute (DayFromYear 10000) in M. lia.
Qed.

Lemma isoDay_fourDigit day :
  firstDay <= day <= lastDay ->
  exists y m d, validCivil y m d /\ 0 <= y <= 9999 /\ MakeDay y m d = day /\
    isoDay day = putDigits 4 y (String "-" (putDigits 2 m (String "-" (putDigits 2 d "")))).
Proof.
  intros R. pose proof (fourDigitYear day R) as Y.
  unfold isoDay, putDate. destruct (civil day) as [[y m] d] eqn:C.
  assert (Ey : y = YearFromDay day) by (unfold civil in C; congruence).
  apply civil_spec in C as [V E].
  exists y, m, d. repeat split; try apply V; try lia.
  unfold putYear. subst y.
  destruct (Z.leb_spec 0 (YearFromDay day)); [|lia].
  destruct (Z.leb_spec (YearFromDay day) 9999); [|lia]. reflexivity.
Qed.

Lemma compare_isoDay a b :
  firstDay <= a <= lastDay -> firstDay <= b <= lastDay ->
  localeCompare (isoDay a) (isoDay b) = (a ?= b).
Proof.
  intros Ra Rb.
  destruct (isoDay_fourDigit a Ra) as (y & m & d & V & Y & E & ->).
  destruct (isoDay_fourDigit b Rb) as (y' & m' & d' & V' & Y' & E' & ->).
  unfold localeCompare.
  pose proof V as [Hm Hd]. pose proof V' as [Hm' Hd'].
  pose proof (DaysInMonth_bounds (isLeap y) _ Hm). pose proof (DaysInMonth_bounds (isLeap y') _ Hm').
  rewrite compare_putDigits by (change (10 ^ Z.of_nat 4) with 10000; lia).
  cbn [String.compare]. change (Ascii.compare "-" "-") with Eq. cbv iota.
  rewrite compare_putDigits by (change (10 ^ Z.of_nat 2) with 100; lia).
  cbn [String.compare]. change (Ascii.compare "-" "-") with Eq. cbv iota.
  rewrite compare_putDigits by (change (10 ^ Z.of_nat 2) with 100; lia).
  cbn [String.compare].
  subst a b. symmetry.
  destruct (Z.compare_spec y y') as [->|L|L].
  - destruct (Z.compare_spec m m') as [->|L|L].
    + destruct (Z.compare_spec d d') as [->|L|L].
      * apply Z.compare_refl.
      * apply Z.compare_lt_iff, MakeDay_lt; auto.
      * apply Z.compare_gt_iff, MakeDay_lt; auto.
    + apply Z.compare_lt_iff, MakeDay_lt; auto.
    + apply Z.compare_gt_iff, MakeDay_lt; auto.
  - apply Z.compare_lt_iff, MakeDay_lt; auto.
  - apply Z.compare_gt_iff, MakeDay_lt; auto.
Qed.

Lemma isoDay_inj a b :
  firstDay <= a <= lastDay -> firstDay <= b <= lastDay ->
  isoDay a = isoDay b -> a = b.
Proof.
  intros Ra Rb E. apply Z.compare_eq. rewrite <- compare_isoDay by assumption.
  rewrite E. apply localeCompare_refl.
Qed.

Lemma fourDigit_inRange day : firstDay <= day <= lastDay -> dayInRange day.
Proof. rewrite firstDay_value, lastDay_value. unfold dayInRange. lia. Qed.

End JSDateText.

(** ** Arrays: [indexOf], the duplicate filter and the sort *)

Lemma newer_irrefl a : ~ newer a a.
Proof. unfold newer. now rewrite localeCompare_refl. Qed.

Lemma newer_asym a b : newer a b -> ~ newer b a.
Proof.
  unfold newer. intros H H'. rewrite localeCompare_antisym, H' in H. discriminate.
Qed.

Lemma newer_trans a b c : newer a b -> newer b c -> newer a c.
Proof.
  unfold newer. rewrite !localeCompare_Gt_Lt. intros H1 H2.
  exact (localeCompare_trans _ _ _ H2 H1).
Qed.

Lemma notBefore_cases a b : notBefore a b <-> a = b \/ newer a b.
Proof.
  unfold notBefore, newer. rewrite (localeCompare_antisym b a).
  destruct (localeCompare a b) eqn:E; simpl.
  - apply localeCompare_eq in E. split; [now left|congruence].
  - split; [congruence|]. intros [->|]; [|discriminate].
    rewrite localeCompare_refl in E. discriminate.
  - split; [now right|congruence].
Qed.

Lemma notBefore_trans a b c : notBefore a b -> notBefore b c -> notBefore a c.
Proof.
  rewrite !notBefore_cases. intros [->|H1] [->|H2]; auto.
  right. eapply newer_trans; eassumption.
Qed.

(** *** [indexOf] *)

Lemma indexOfFrom_absent l : forall i x,
  ~ In x l -> indexOfFrom i l x = -1.
Proof.
  induction l as [|y l IH]; intros i x H; [reflexivity|].
  simpl. destruct (String.eqb_spec y x) as [->|N].
  - exfalso. apply H. now left.
  - apply IH. intros C. apply H. now right.
Qed.

Lemma indexOfFrom_present l : forall i x,
  In x l -> i <= indexOfFrom i l x < i + Z.of_nat (List.length l).
Proof.
  induction l as [|y l IH]; intros i x H; [contradiction|].
  cbn [indexOfFrom List.length]. destruct (String.eqb_spec y x) as [->|N].
  - lia.
  - destruct H as [->|H]; [contradiction|].
    specialize (IH (i + 1) x H). lia.
Qed.

Lemma indexOfFrom_app pre : forall i x suf,
  ~ In x pre ->
  indexOfFrom i (pre ++ suf) x = indexOfFrom (i + Z.of_nat (List.length pre)) suf x.
Proof.
  induction pre as [|y pre IH]; intros i x suf H.
  - simpl. f_equal. lia.
  - cbn [app indexOfFrom List.length]. destruct (String.eqb_spec y x) as [->|N].
    + exfalso. apply H. now left.
    + rewrite IH by (intros C; apply H; now right). f_equal. lia.
Qed.

Lemma indexOfFrom_app_l pre : forall i x suf,
  In x pre -> indexOfFrom i (pre ++ suf) x = indexOfFrom i pre x.
Proof.
  induction pre as [|y pre IH]; intros i x suf H; [contradiction|].
  cbn [app indexOfFrom]. destruct (String.eqb_spec y x) as [->|N]; [reflexivity|].
  destruct H as [->|H]; [contradiction|]. now apply IH.
Qed.

Lemma includes_In l x : includes l x = true <-> In x l.
Proof.
  unfold includes, indexOf. split.
  - intros H. destruct (in_dec string_dec x l) as [I|N]; [exact I|].
    rewrite indexOfFrom_absent in H by exact N. discriminate.
  - intros H. pose proof (indexOfFrom_present l 0 x H).
    destruct (Z.eqb_spec (indexOfFrom 0 l x) (-1)); [lia|reflexivity].
Qed.

(** *** The duplicate filter keeps the first occurrence of every value *)

Lemma firstOccurrence pre x suf :
  (indexOf (pre ++ x :: suf) x =? Z.of_nat (List.length pre)) = negb (if in_dec string_dec x pre then true else false).
Proof.
  unfold indexOf. destruct (in_dec string_dec x pre) as [I|N]; simpl.
  - rewrite indexOfFrom_app_l by exact I.
    pose proof (indexOfFrom_present pre 0 x I). apply Z.eqb_neq. lia.
  - rewrite indexOfFrom_app by exact N. simpl. rewrite String.eqb_refl. apply Z.eqb_refl.
Qed.

Lemma filterIndexed_first suf : forall pre,
  let l := filterIndexed (fun date index => indexOf (pre ++ suf) date =? index)
             (Z.of_nat (List.length pre)) suf in
  (forall x, In x l <-> In x suf /\ ~ In x pre) /\ NoDup l.
Proof.
  induction suf as [|x suf IH]; intros pre; cbv zeta.
  - simpl. split; [tauto|constructor].
  - cbn [filterIndexed]. rewrite firstOccurrence.
    specialize (IH (pre ++ [x])). cbv zeta in IH.
    rewrite <- app_assoc in IH. cbn [app] in IH.
    rewrite length_app in IH. cbn [List.length] in IH.
    replace (Z.of_nat (List.length pre + 1)) with (Z.of_nat (List.length pre) + 1) in IH by lia.
    destruct IH as [IHin IHnd].
    destruct (in_dec string_dec x pre) as [I|N]; cbn [negb].
    + split; [|exact IHnd].
      intros y. rewrite IHin, in_app_iff. simpl. split.
      * intros [H1 H2]. split; [now right|tauto].
      * intros [[->|H1] H2]; [contradiction|]. split; [exact H1|].
        intros [C|[->|[]]]; [contradiction|contradiction].
    + split.
      * intros y. simpl. rewrite IHin, in_app_iff. simpl. split.
        -- intros [->|[H1 H2]]; [split; [now left|exact N]|].
           split; [now right|tauto].
        -- intros [[->|H1] H2]; [now left|].
           destruct (string_dec x y) as [->|D]; [now left|].
           right. split; [exact H1|]. intros [C|[C|[]]]; [contradiction|contradiction].
      * constructor; [|exact IHnd].
        rewrite IHin, in_app_iff. simpl. tauto.
Qed.

Lemma removeDuplicates_In l x : In x (removeDuplicates l) <-> In x l.
Proof.
  destruct (filterIndexed_first l []) as [H _]. simpl in H.
  unfold removeDuplicates. rewrite H. tauto.
Qed.

Lemma removeDuplicates_NoDup l : NoDup (removeDuplicates l).
Proof. exact (proj2 (filterIndexed_first l [])). Qed.

(** *** The sort *)

Lemma insertDesc_perm a l : Permutation (insertDesc a l) (a :: l).
Proof.
  induction l as [|b l IH]; [reflexivity|].
  simpl. destruct (localeCompare b a); try reflexivity.
  rewrite IH. apply perm_swap.
Qed.

Lemma sortDesc_perm l : Permutation (sortDesc l) l.
Proof.
  induction l as [|a l IH]; [reflexivity|].
  simpl. rewrite insertDesc_perm. now constructor.
Qed.

Lemma sortDesc_In l x : In x (sortDesc l) <-> In x l.
Proof.
  split; apply Permutation_in; [|symmetry]; apply sortDesc_perm.
Qed.

Lemma insertDesc_sorted a l :
  StronglySorted notBefore l -> StronglySorted notBefore (insertDesc a l).
Proof.
  induction 1 as [|b l S IH F]; [repeat constructor|].
  simpl. destruct (localeCompare b a) eqn:E.
  - constructor; [now constructor|].
    assert (N : notBefore a b) by (unfold notBefore; congruence).
    constructor; [exact N|].
    eapply Forall_impl; [|exact F]. intros c. now apply notBefore_trans.
  - constructor; [now constructor|].
    assert (N : notBefore a b) by (unfold notBefore; congruence).
    constructor; [exact N|].
    eapply Forall_impl; [|exact F]. intros c. now apply notBefore_trans.
  - constructor; [exact IH|].
    apply Forall_forall. intros c Hc.
    apply (Permutation_in _ (insertDesc_perm a l)) in Hc. destruct Hc as [<-|Hc].
    + apply notBefore_cases. right. unfold newer. exact E.
    + rewrite Forall_forall in F. now apply F.
Qed.

Lemma sortDesc_sorted l : StronglySorted notBefore (sortDesc l).
Proof.
  induction l as [|a l IH]; [constructor|]. simpl. now apply insertDesc_sorted.
Qed.

Lemma sorted_NoDup_descending l :
  StronglySorted notBefore l -> NoDup l -> descending l.
Proof.
  induction 1 as [|a l S IH F]; intros ND; [constructor|].
  inversion ND as [|? ? Na ND']; subst.
  constructor; [now apply IH|].
  rewrite Forall_forall in *. intros b Hb.
  destruct (proj1 (notBefore_cases a b) (F b Hb)) as [->|H]; [contradiction|exact H].
Qed.

Lemma descending_NoDup l : descending l -> NoDup l.
Proof.
  induction 1 as [|a l S IH F]; constructor; [|exact IH].
  intros I. rewrite Forall_forall in F. exact (newer_irrefl a (F a I)).
Qed.

(** A set of strings has one descending enumeration. *)
Lemma descending_unique l1 : forall l2,
  descending l1 -> descending l2 ->
  (forall x, In x l1 <-> In x l2) -> l1 = l2.
Proof.
  induction l1 as [|a l1 IH]; intros [|b l2] D1 D2 E.
  - reflexivity.
  - exfalso. apply (proj2 (E b)). now left.
  - exfalso. apply (proj1 (E a)). now left.
  - inversion D1 as [|? ? S1 F1]; inversion D2 as [|? ? S2 F2]; subst.
    rewrite Forall_forall in F1, F2.
    assert (a = b) as ->.
    { destruct (proj1 (E a) (or_introl eq_refl)) as [<-|Ia]; [reflexivity|].
      destruct (proj2 (E b) (or_introl eq_refl)) as [->|Ib]; [reflexivity|].
      exfalso. exact (newer_asym _ _ (F1 b Ib) (F2 a Ia)). }
    f_equal. apply IH; [exact S1|exact S2|].
    intros x. split; intros I.
    + destruct (proj1 (E x) (or_intror I)) as [<-|H]; [|exact H].
      exfalso. exact (newer_irrefl _ (F1 _ I)).
    + destruct (proj2 (E x) (or_intror I)) as [<-|H]; [|exact H].
      exfalso. exact (newer_irrefl _ (F2 _ I)).
Qed.

(** *** The normalised view *)

Lemma sortedCheckInsOf_In log x :
  In x (sortedCheckInsOf log) <-> In x (map datePart log).
Proof. unfold sortedCheckInsOf. now rewrite sortDesc_In, removeDuplicates_In. Qed.

Lemma sortedCheckInsOf_descending log : descending (sortedCheckInsOf log).
Proof.
  unfold sortedCheckInsOf. apply sorted_NoDup_descending.
  - apply sortDesc_sorted.
  - eapply Permutation_NoDup; [symmetry; apply sortDesc_perm|].
    apply removeDuplicates_NoDup.
Qed.

Lemma sortedCheckInsOf_ext l1 l2 :
  (forall d, In d (map datePart l1) <-> In d (map datePart l2)) ->
  sortedCheckInsOf l1 = sortedCheckInsOf l2.
Proof.
  intros E. apply descending_unique; try apply sortedCheckInsOf_descending.
  intros x. now rewrite !sortedCheckInsOf_In.
Qed.

Lemma sortedCheckInsOf_nil log : sortedCheckInsOf log = [] <-> log = [].
Proof.
  split; [|now intros ->].
  intros E. destruct log as [|e log]; [reflexivity|].
  assert (I : In (datePart e) (sortedCheckInsOf (e :: log)))
    by (apply sortedCheckInsOf_In; now left).
  rewrite E in I. contradiction.
Qed.

Lemma sortedCheckInsOf_empty log : sortedCheckInsOf log = [] -> log = [].
Proof. apply sortedCheckInsOf_nil. Qed.

Import JSDate JSDateFacts JSDateText.

(** ** Calendar dates *)

Lemma length_putDigits w : forall n rest,
  String.length (putDigits w n rest) = (w + String.length rest)%nat.
Proof.
  induction w as [|k IH]; intros n rest; [reflexivity|].
  cbn [putDigits String.length]. now rewrite IH.
Qed.

Lemma length_isoDay day :
  String.length (isoDay day) =
  if (0 <=? YearFromDay day) && (YearFromDay day <=? 9999) then 10%nat else 13%nat.
Proof.
  unfold isoDay, putDate, civil, putYear.
  destruct ((0 <=? YearFromDay day) && (YearFromDay day <=? 9999)).
  - rewrite length_putDigits. cbn [String.length]. rewrite length_putDigits.
    cbn [String.length]. rewrite length_putDigits. reflexivity.
  - destruct (YearFromDay day <? 0); cbn [String.length];
      rewrite length_putDigits; cbn [String.length]; rewrite length_putDigits;
      cbn [String.length]; rewrite length_putDigits; reflexivity.
Qed.

Lemma year_fourDigit day : 0 <= YearFromDay day <= 9999 -> fourDigit day.
Proof.
  intros [L U]. pose proof (YearFromDay_spec day) as [S1 S2].
  unfold fourDigit. rewrite firstDay_value, lastDay_value.
  apply DayFromYear_mono in L.
  assert (U' : YearFromDay day + 1 <= 10000) by lia.
  apply DayFromYear_mono in U'.
  vm_compute (DayFromYear 0) in L. vm_compute (DayFromYear 10000) in U'. lia.
Qed.

Lemma length_isoDay_10 day :
  String.length (isoDay day) = 10%nat -> fourDigit day.
Proof.
  rewrite length_isoDay.
  destruct (Z.leb_spec 0 (YearFromDay day)); [|discriminate].
  destruct (Z.leb_spec (YearFromDay day) 9999); [|discriminate].
  intros _. now apply year_fourDigit.
Qed.

Lemma fourDigit_length day : fourDigit day -> String.length (isoDay day) = 10%nat.
Proof.
  intros H. rewrite length_isoDay. apply fourDigitYear in H.
  destruct (Z.leb_spec 0 (YearFromDay day)); [|lia].
  destruct (Z.leb_spec (YearFromDay day) 9999); [reflexivity|lia].
Qed.

Lemma parse_midnight s t :
  parse s = Some t -> exists day, t = day * msPerDay /\ dayInRange day.
Proof.
  unfold parse. destruct (parseYear s) as [[y r]|]; [|discriminate].
  destruct (parseMonthDay y r) as [day|]; [|discriminate].
  unfold TimeClip. destruct (Z.leb_spec (Z.abs (day * msPerDay)) maxTime); [|discriminate].
  intros [= <-]. exists day. split; [reflexivity|].
  unfold dayInRange, msPerDay, maxTime in *. lia.
Qed.

Lemma isCalendarDate_spec s :
  isCalendarDate s = true <-> exists day, fourDigit day /\ s = isoDay day.
Proof.
  unfold isCalendarDate. split.
  - destruct (parse s) as [t|] eqn:P; [|discriminate].
    intros H. apply andb_prop in H as [E L].
    apply String.eqb_eq in E. apply Nat.eqb_eq in L.
    exists (Day t). split; [|now symmetry].
    apply length_isoDay_10. now rewrite E.
  - intros (day & F & ->).
    rewrite parse_isoDay by now apply fourDigit_inRange.
    rewrite Day_midnight, String.eqb_refl, fourDigit_length by exact F. reflexivity.
Qed.

(** A printed day that reads as a calendar date is a four-digit-year day. *)
Lemma isoDay_calendar a b : fourDigit b -> isoDay a = isoDay b -> a = b.
Proof.
  intros Fb E. assert (Fa : fourDigit a).
  { apply length_isoDay_10. rewrite E. now apply fourDigit_length. }
  now apply isoDay_inj.
Qed.

(** ** Date utilities *)

Lemma getTodayDateString_isoDay now : getTodayDateString now = isoDay (Day now).
Proof. apply datePart_toISOString. Qed.

Lemma getYesterdayDateString_isoDay now :
  getYesterdayDateString now = isoDay (Day now - 1).
Proof.
  unfold getYesterdayDateString. now rewrite datePart_toISOString, Day_prevDay.
Qed.

Lemma clockOk_today now : clockOk now -> dayInRange (Day now) /\ dayInRange (Day now - 1).
Proof.
  unfold clockOk, dayInRange, Day, maxTime, msPerDay. intros [L U].
  assert (-99999999 <= now / 86400000) by (apply Z.div_le_lower_bound; lia).
  assert (now / 86400000 <= 100000000) by (apply Z.div_le_upper_bound; lia).
  lia.
Qed.

Lemma getDaysDifference_isoDay a b :
  dayInRange a -> dayInRange b ->
  getDaysDifference (isoDay a) (isoDay b) = Some (Z.abs (b - a)).
Proof.
  intros Ha Hb. unfold getDaysDifference. rewrite !parse_isoDay by assumption.
  f_equal. rewrite <- Z.mul_sub_distr_r, Z.abs_mul.
  change (1000 * 60 * 60 * 24) with msPerDay.
  change (Z.abs msPerDay) with msPerDay. apply Z.div_mul. discriminate.
Qed.

(** ** The sorted view of a well-formed log *)

Lemma newer_isoDay a b :
  fourDigit a -> fourDigit b -> (newer (isoDay a) (isoDay b) <-> b < a).
Proof.
  intros Fa Fb. unfold newer. rewrite compare_isoDay by assumption.
  rewrite Z.compare_gt_iff. reflexivity.
Qed.

Lemma calendar_list l :
  Forall (fun s => isCalendarDate s = true) l ->
  exists ds, l = map isoDay ds /\ Forall fourDigit ds.
Proof.
  induction 1 as [|s l H _ (ds & -> & F)].
  - now exists [].
  - apply isCalendarDate_spec in H as (d & Fd & ->).
    exists (d :: ds). split; [reflexivity|now constructor].
Qed.

Lemma descending_days ds :
  Forall fourDigit ds -> descending (map isoDay ds) ->
  StronglySorted (fun a b => b < a) ds.
Proof.
  induction 1 as [|d ds Fd F IH]; intros D; [constructor|].
  simpl in D. inversion D as [|? ? S Fa]; subst.
  constructor; [now apply IH|].
  rewrite Forall_forall in *. intros b Hb.
  apply newer_isoDay; [exact Fd|now apply F|].
  apply Fa. now apply in_map.
Qed.

Lemma sortedCheckInsOf_days log :
  wellFormedLog log ->
  exists ds, sortedCheckInsOf log = map isoDay ds /\ Forall fourDigit ds /\
             StronglySorted (fun a b => b < a) ds.
Proof.
  intros W.
  assert (F : Forall (fun s => isCalendarDate s = true) (sortedCheckInsOf log)).
  { apply Forall_forall. intros s Hs. apply sortedCheckInsOf_In in Hs.
    apply in_map_iff in Hs as (e & <- & He).
    unfold wellFormedLog in W. rewrite Forall_forall in W. now apply W. }
  destruct (calendar_list _ F) as (ds & E & Fd).
  exists ds. repeat split; [exact E|exact Fd|].
  apply descending_days; [exact Fd|].
  rewrite <- E. apply sortedCheckInsOf_descending.
Qed.

(** ** The current-streak loop *)

Lemma numEq_Some v n : numEq (Some v) n = (v =? n).
Proof. reflexivity. Qed.

(** On calendar dates the loop counts the entries that are the expected
    day, the day before it, and so on, and stops at the first that is
    not. *)
Lemma countBackwards_days ds : forall e c,
  Forall fourDigit ds -> dayInRange e ->
  exists k : nat,
    countBackwards (map isoDay ds) (isoDay e) c = c + Z.of_nat k /\
    (forall i : nat, (i < k)%nat -> nth_error ds i = Some (e - Z.of_nat i)) /\
    nth_error ds k <> Some (e - Z.of_nat k).
Proof.
  induction ds as [|d ds IH]; intros e c F He.
  - exists O. simpl. repeat split; [lia|intros i Hi; lia|discriminate].
  - inversion F as [|? ? Fd F']; subst.
    pose proof (fourDigit_inRange d Fd) as Rd.
    cbn [map countBackwards].
    rewrite getDaysDifference_isoDay, numEq_Some by assumption.
    destruct (Z.eqb_spec (Z.abs (e - d)) 0) as [E|N].
    + assert (d = e) by lia. subst d.
      rewrite parse_isoDay by exact Rd.
      rewrite datePart_toISOString, Day_prevDay, Day_midnight.
      assert (R' : dayInRange (e - 1)).
      { unfold fourDigit in Fd. rewrite firstDay_value, lastDay_value in Fd.
        unfold dayInRange. lia. }
      destruct (IH (e - 1) (c + 1) F' R') as (k & Ek & Pk & Sk).
      exists (S k). rewrite Ek. repeat split.
      * lia.
      * intros [|i] Hi; simpl; [f_equal; lia|].
        rewrite Pk by lia. f_equal. lia.
      * simpl. intros C. apply Sk. rewrite C. f_equal. lia.
    + exists O. repeat split; [lia|intros i Hi; lia|].
      simpl. intros [= C]. lia.
Qed.

(** ** The longest-streak loop *)

Section Runs.

Lemma runIn_least (S : Z -> Prop) c a n :
  (forall x, S x -> c <= x) -> runIn S a n -> 0 < n ->
  (exists i, 0 <= i < n /\ a + i = c) -> a = c.
Proof.
  intros Hmin R Hn (i & Hi & E).
  assert (S a) by (replace a with (a + 0) by ring; apply R; lia).
  specialize (Hmin a ltac:(assumption)). lia.
Qed.

Lemma scanInv_grow S prev L T :
  scanInv S prev L T ->
  scanInv (fun x => S x \/ x = prev - 1) (prev - 1) L (T + 1).
Proof.
  intros [[Hp Hmin] [HT Hrun] Hmax [HL Hbest] Hbound].
  assert (Hmin' : forall x, S x \/ x = prev - 1 -> prev - 1 <= x).
  { intros x [Hx| ->]; [specialize (Hmin x Hx)|]; lia. }
  assert (Hmax' : forall n, runIn (fun x => S x \/ x = prev - 1) (prev - 1) n -> n <= T + 1).
  { intros n R. destruct (Z.le_gt_cases n 1) as [|G]; [lia|].
    assert (n - 1 <= T); [|lia]. apply Hmax. intros i Hi.
    destruct (R (i + 1) ltac:(lia)) as [H|H]; [|lia].
    now replace (prev + i) with (prev - 1 + (i + 1)) by ring. }
  split.
  - split; [now right|exact Hmin'].
  - split; [lia|]. intros i Hi.
    destruct (Z.eq_dec i 0) as [->|]; [right; ring|].
    left. replace (prev - 1 + i) with (prev + (i - 1)) by ring. apply Hrun. lia.
  - exact Hmax'.
  - split; [exact HL|]. destruct Hbest as [->|[a Ha]]; [now left|].
    right. exists a. intros i Hi. left. now apply Ha.
  - intros a n R. destruct (Z.le_gt_cases n 0) as [|G]; [lia|].
    destruct (Z.le_gt_cases a (prev - 1)) as [Le|Gt].
    + assert (a = prev - 1).
      { destruct (R 0 ltac:(lia)) as [H|H]; [|lia].
        rewrite Z.add_0_r in H. specialize (Hmin a H). lia. }
      subst a. specialize (Hmax' n R). lia.
    + assert (n <= Z.max L T); [|lia]. apply (Hbound a). intros i Hi.
      destruct (R i Hi) as [H|H]; [exact H|lia].
Qed.

Lemma scanInv_reset S prev L T c :
  scanInv S prev L T -> c < prev - 1 ->
  scanInv (fun x => S x \/ x = c) c (Z.max L T) 1.
Proof.
  intros [[Hp Hmin] [HT Hrun] Hmax [HL Hbest] Hbound] Hc.
  assert (Hmax' : forall n, runIn (fun x => S x \/ x = c) c n -> n <= 1).
  { intros n R. destruct (Z.le_gt_cases n 1) as [|G]; [lia|].
    destruct (R 1 ltac:(lia)) as [H|H]; [|lia].
    specialize (Hmin _ H). lia. }
  split.
  - split; [now right|]. intros x [Hx| ->]; [specialize (Hmin x Hx)|]; lia.
  - split; [lia|]. intros i Hi. right. lia.
  - exact Hmax'.
  - split; [lia|]. right.
    destruct (Z.max_spec L T) as [[Hlt ->]|[Hle ->]].
    + exists prev. intros i Hi. left. now apply Hrun.
    + destruct Hbest as [->|[a Ha]]; [lia|].
      exists a. intros i Hi. left. now apply Ha.
  - intros a n R. destruct (Z.le_gt_cases n 0) as [|G]; [lia|].
    destruct (Z.le_gt_cases a c) as [Le|Gt].
    + assert (a = c).
      { destruct (R 0 ltac:(lia)) as [H|H]; [|lia].
        rewrite Z.add_0_r in H. specialize (Hmin a H). lia. }
      subst a. specialize (Hmax' n R). lia.
    + assert (n <= Z.max L T); [|lia]. apply (Hbound a). intros i Hi.
      destruct (R i Hi) as [H|H]; [exact H|lia].
Qed.

Lemma scanInv_start p : scanInv (fun x => x = p) p 0 1.
Proof.
  assert (M : forall a n, runIn (fun x => x = p) a n -> n <= 1).
  { intros a n R. destruct (Z.le_gt_cases n 1) as [|G]; [lia|].
    pose proof (R 0 ltac:(lia)). pose proof (R 1 ltac:(lia)). simpl in *. lia. }
  split.
  - split; [reflexivity|intros x ->; lia].
  - split; [lia|]. intros i Hi. lia.
  - apply M.
  - split; [lia|now left].
  - intros a n R. specialize (M a n R). lia.
Qed.

Lemma scanInv_ext S S' prev L T :
  (forall x, S x <-> S' x) -> scanInv S prev L T -> scanInv S' prev L T.
Proof.
  intros E [[Hp Hmin] [HT Hrun] Hmax [HL Hbest] Hbound].
  assert (R : forall a n, runIn S' a n -> runIn S a n)
    by (intros a n H i Hi; apply E, H, Hi).
  assert (R' : forall a n, runIn S a n -> runIn S' a n)
    by (intros a n H i Hi; apply E, H, Hi).
  split.
  - split; [now apply E|]. intros x Hx. apply Hmin. now apply E.
  - split; [exact HT|now apply R'].
  - intros n H. apply Hmax. now apply R.
  - split; [exact HL|]. destruct Hbest as [->|[a Ha]]; [now left|].
    right. exists a. now apply R'.
  - intros a n H. apply (Hbound a). now apply R.
Qed.

End Runs.

Lemma scanHistory_days ds : forall p L T (S : Z -> Prop),
  fourDigit p -> Forall fourDigit ds ->
  StronglySorted (fun a b => b < a) (p :: ds) ->
  scanInv S p L T ->
  exists L' T' last,
    scanHistory (isoDay p) (map isoDay ds) L T = (L', T') /\
    scanInv (fun x => S x \/ In x ds) last L' T'.
Proof.
  induction ds as [|d ds IH]; intros p L T S Fp F Srt Inv.
  - exists L, T, p. split; [reflexivity|].
    eapply scanInv_ext; [|exact Inv]. simpl. tauto.
  - inversion F as [|? ? Fd F']; subst.
    inversion Srt as [|? ? Srt' Hp]; subst.
    assert (Hd : d < p) by (rewrite Forall_forall in Hp; apply Hp; now left).
    cbn [map scanHistory].
    rewrite getDaysDifference_isoDay, numEq_Some by now apply fourDigit_inRange.
    destruct (Z.eqb_spec (Z.abs (d - p)) 1) as [E|N].
    + assert (d = p - 1) by lia. subst d.
      destruct (IH (p - 1) L (T + 1) _ Fd F' Srt' (scanInv_grow _ _ _ _ Inv))
        as (L' & T' & last & Es & Is).
      exists L', T', last. split; [exact Es|].
      eapply scanInv_ext; [|exact Is]. simpl. intros x. split.
      * intros [[H|H]|H]; auto.
      * intros [H|[H|H]]; auto.
    + destruct (IH d (Z.max L T) 1 _ Fd F' Srt'
                 (scanInv_reset _ _ _ _ d Inv ltac:(lia)))
        as (L' & T' & last & Es & Is).
      exists L', T', last. split; [exact Es|].
      eapply scanInv_ext; [|exact Is]. simpl. intros x. split.
      * intros [[H|H]|H]; auto.
      * intros [H|[H|H]]; auto.
Qed.

(** ** [calculateStreaks] *)

Lemma calculateStreaks_sorted now habit e rest :
  sortedCheckInsOf (checkIns habit) = e :: rest ->
  calculateStreaks now habit =
  mkStreaks (if isToday now e
             then countBackwards rest (getYesterdayDateString now) 1 else 0)
            (Z.max (fst (scanHistory e rest 0 1)) (snd (scanHistory e rest 0 1))).
Proof.
  intros E. unfold calculateStreaks. rewrite E.
  destruct (checkIns habit) as [|x l] eqn:C; [discriminate|].
  unfold streaksOfSorted. destruct (scanHistory e rest 0 1); reflexivity.
Qed.

Lemma calculateStreaks_empty now habit :
  checkIns habit = [] -> calculateStreaks now habit = mkStreaks 0 0.
Proof. intros E. unfold calculateStreaks. now rewrite E. Qed.

Lemma scanHistory_bounds rest : forall prev L T,
  0 <= L -> 1 <= T ->
  0 <= fst (scanHistory prev rest L T) /\ 1 <= snd (scanHistory prev rest L T).
Proof.
  induction rest as [|c rest IH]; intros prev L T HL HT; [simpl; lia|].
  cbn [scanHistory]. destruct (numEq _ 1); apply IH; lia.
Qed.

Lemma countBackwards_ge rest : forall e c, c <= countBackwards rest e c.
Proof.
  induction rest as [|x rest IH]; intros e c; simpl; [lia|].
  destruct (numEq _ 0); [|lia].
  destruct (parse x); [|lia]. specialize (IH (datePart (toISOString (prevDay z))) (c + 1)). lia.
Qed.

(** The longest streak does not look at the clock. *)
Lemma longest_independent now now' habit :
  streaks_longestStreak (calculateStreaks now habit) =
  streaks_longestStreak (calculateStreaks now' habit).
Proof.
  destruct (sortedCheckInsOf (checkIns habit)) as [|e rest] eqn:E.
  - apply sortedCheckInsOf_empty in E. now rewrite !calculateStreaks_empty by exact E.
  - now rewrite !(calculateStreaks_sorted _ _ _ _ E).
Qed.

Lemma longest_nonempty now habit :
  checkIns habit <> [] -> 1 <= streaks_longestStreak (calculateStreaks now habit).
Proof.
  intros N. destruct (sortedCheckInsOf (checkIns habit)) as [|e rest] eqn:E.
  - apply sortedCheckInsOf_empty in E. contradiction.
  - rewrite (calculateStreaks_sorted _ _ _ _ E). simpl.
    pose proof (scanHistory_bounds rest e 0 1 ltac:(lia) ltac:(lia)). lia.
Qed.

Lemma current_nonneg now habit :
  0 <= streaks_currentStreak (calculateStreaks now habit).
Proof.
  destruct (sortedCheckInsOf (checkIns habit)) as [|e rest] eqn:E.
  - apply sortedCheckInsOf_empty in E. now rewrite calculateStreaks_empty by exact E.
  - rewrite (calculateStreaks_sorted _ _ _ _ E). simpl.
    destruct (isToday now e); [|lia].
    pose proof (countBackwards_ge rest (getYesterdayDateString now) 1). lia.
Qed.

Lemma longest_single now habit entry :
  checkIns habit = [entry] ->
  streaks_longestStreak (calculateStreaks now habit) = 1.
Proof.
  intros E. unfold calculateStreaks. rewrite E.
  unfold sortedCheckInsOf, removeDuplicates. cbn [map filterIndexed].
  unfold indexOf. cbn [indexOfFrom]. rewrite String.eqb_refl. reflexivity.
Qed.

(** The sorted view of a well-formed log, as days. *)
Lemma sortedCheckInsOf_newestFirst log :
  wellFormedLog log -> newestFirst log (sortedCheckInsOf log).
Proof.
  intros W. destruct (sortedCheckInsOf_days log W) as (ds & E & F & S).
  exists ds. repeat split; try assumption.
  - intros I. unfold checkedIn. rewrite <- sortedCheckInsOf_In, E. now apply in_map.
  - unfold checkedIn. rewrite <- sortedCheckInsOf_In, E. intros I.
    apply in_map_iff in I as (d & Ed & Id).
    rewrite Forall_forall in F.
    now rewrite (isoDay_calendar day d (F d Id) (eq_sym Ed)).
Qed.

Lemma newestFirst_fourDigit log days :
  wellFormedLog log ->
  (forall day, In day days <-> checkedIn log day) -> Forall fourDigit days.
Proof.
  intros W H. apply Forall_forall. intros d Hd. apply H in Hd.
  unfold checkedIn in Hd. apply in_map_iff in Hd as (e & Ee & Ie).
  unfold wellFormedLog in W. rewrite Forall_forall in W. specialize (W e Ie).
  rewrite Ee in W. apply isCalendarDate_spec in W as (d' & F' & E').
  now rewrite (isoDay_calendar d d' F' E').
Qed.

(** The current streak of a well-formed log: the number of leading
    entries of the sorted view that are today, yesterday, and so on. *)
Lemma current_streak_days now habit :
  clockOk now -> wellFormedLog (checkIns habit) ->
  exists k : nat,
    streaks_currentStreak (calculateStreaks now habit) = Z.of_nat k /\
    (forall i : nat, (i < k)%nat ->
       nth_error (sortedCheckInsOf (checkIns habit)) i
       = Some (isoDay (Day now - Z.of_nat i))) /\
    nth_error (sortedCheckInsOf (checkIns habit)) k
    <> Some (isoDay (Day now - Z.of_nat k)).
Proof.
  intros C W. destruct (sortedCheckInsOf_days _ W) as (ds & E & F & Srt).
  destruct (clockOk_today now C) as [R0 R1].
  destruct ds as [|d0 ds].
  - apply sortedCheckInsOf_empty in E. rewrite calculateStreaks_empty by exact E.
    exists O. rewrite E. repeat split; [intros i Hi; lia|discriminate].
  - cbn [map] in E.
    rewrite (calculateStreaks_sorted _ _ _ _ E), E. cbn [streaks_currentStreak].
    inversion F as [|? ? F0 F']; subst.
    unfold isToday. rewrite getTodayDateString_isoDay, getYesterdayDateString_isoDay.
    destruct (String.eqb_spec (isoDay d0) (isoDay (Day now))) as [Eq|Ne].
    + symmetry in Eq. apply (isoDay_calendar _ _ F0) in Eq. subst d0.
      destruct (countBackwards_days ds (Day now - 1) 1 F' R1) as (k & Ek & Pk & Sk).
      exists (S k). rewrite Ek. repeat split.
      * lia.
      * intros [|i] Hi; cbn [map nth_error].
        -- do 2 f_equal. lia.
        -- rewrite nth_error_map, Pk by lia. cbn [option_map]. do 2 f_equal. lia.
      * cbn [map nth_error]. rewrite nth_error_map.
        destruct (nth_error ds k) as [x|] eqn:Ex; [|discriminate].
        cbn [option_map]. intros [= Ei]. apply Sk. f_equal.
        assert (Fx : fourDigit x).
        { rewrite Forall_forall in F'. apply F'. eapply nth_error_In; eassumption. }
        symmetry in Ei. apply (isoDay_calendar _ _ Fx) in Ei. lia.
    + exists O. repeat split; [intros i Hi; lia|].
      cbn [nth_error]. intros [= Ei]. apply Ne. rewrite Ei. do 2 f_equal. lia.
Qed.

(** The longest streak of a well-formed log is the length of its longest
    run of consecutive days. *)
Lemma longest_streak_runs now habit :
  wellFormedLog (checkIns habit) ->
  let L := streaks_longestStreak (calculateStreaks now habit) in
  (forall first n, consecutiveRun (checkIns habit) first n -> n <= L) /\
  (exists first, consecutiveRun (checkIns habit) first L).
Proof.
  intros W. destruct (sortedCheckInsOf_newestFirst _ W) as (ds & E & Srt & Hin).
  pose proof (newestFirst_fourDigit _ _ W Hin) as F.
  destruct ds as [|d0 ds]; cbv zeta.
  - apply sortedCheckInsOf_empty in E. rewrite calculateStreaks_empty by exact E.
    simpl. split.
    + intros first n R. destruct (Z.le_gt_cases n 0) as [|G]; [assumption|].
      specialize (R 0 ltac:(lia)). unfold checkedIn in R. rewrite E in R. contradiction.
    + exists 0. intros i Hi. lia.
  - cbn [map] in E.
    rewrite (calculateStreaks_sorted _ _ _ _ E). cbn [streaks_longestStreak].
    inversion F as [|? ? F0 F']; subst.
    destruct (scanHistory_days ds d0 0 1 _ F0 F' Srt (scanInv_start d0))
      as (L' & T' & last & Es & Inv).
    rewrite Es. cbn [fst snd].
    assert (Inv' : scanInv (checkedIn (checkIns habit)) last L' T').
    { eapply scanInv_ext; [|exact Inv]. intros x. rewrite <- Hin. simpl.
      split; [intros [->|H]; auto|intros [->|H]; auto]. }
    destruct Inv' as [_ [HT Hrun] _ [HL Hbest] Hbound]. split.
    + intros first n R. now apply (Hbound first).
    + destruct (Z.max_spec L' T') as [[Hlt ->]|[Hle ->]].
      * now exists last.
      * destruct Hbest as [->|[a Ha]]; [lia|]. now exists a.
Qed.

(** On a well-formed log the current streak is a run of the log. *)
Lemma current_le_longest now habit :
  clockOk now -> wellFormedLog (checkIns habit) ->
  streaks_currentStreak (calculateStreaks now habit)
  <= streaks_longestStreak (calculateStreaks now habit).
Proof.
  intros C W.
  destruct (current_streak_days now habit C W) as (k & Ek & Pk & _).
  destruct (longest_streak_runs now habit W) as [B _].
  rewrite Ek. apply (B (Day now - Z.of_nat k + 1)).
  intros i Hi. unfold checkedIn. rewrite <- sortedCheckInsOf_In.
  apply (nth_error_In _ (Z.to_nat (Z.of_nat k - 1 - i))).
  rewrite Pk by lia. do 2 f_equal. lia.
Qed.

(** ** Time zones *)

(** In a zone of fixed offset a step of one local day is a step of
    86400000 milliseconds. *)
Lemma setDatePrev_fixed zone t : fixedOffset zone -> setDatePrev zone t = prevDay t.
Proof.
  intros [k F]. unfold setDatePrev, LocalTime, UTC, prevDay.
  rewrite (proj1 (F t)).
  destruct (civil (Day (t + k))) as [[y m] d] eqn:C.
  apply civil_spec in C as [_ E].
  rewrite (proj2 (F _)).
  replace (MakeDay y m (d - 1)) with (Day (t + k) - 1)
    by (rewrite <- E; unfold MakeDay; ring).
  unfold Day. pose proof (Z.div_mod (t + k) msPerDay ltac:(discriminate)). lia.
Qed.

Lemma getYesterdayDateStringIn_fixed zone now :
  fixedOffset zone -> getYesterdayDateStringIn zone now = getYesterdayDateString now.
Proof.
  intros F. unfold getYesterdayDateStringIn, getYesterdayDateString.
  now rewrite setDatePrev_fixed.
Qed.

Lemma countBackwardsIn_fixed zone rest : forall expected c,
  fixedOffset zone ->
  countBackwardsIn zone rest expected c = countBackwards rest expected c.
Proof.
  induction rest as [|x rest IH]; intros expected c F; [reflexivity|].
  cbn [countBackwardsIn countBackwards].
  destruct (numEq _ 0); [|reflexivity].
  destruct (parse x) as [t|]; [|reflexivity].
  rewrite setDatePrev_fixed by exact F. now apply IH.
Qed.

(** In a zone of fixed offset the streaks are those of [calculateStreaks]. *)
Lemma calculateStreaksIn_fixed zone now habit :
  fixedOffset zone -> calculateStreaksIn zone now habit = calculateStreaks now habit.
Proof.
  intros F. unfold calculateStreaksIn, calculateStreaks.
  destruct (checkIns habit); [reflexivity|].
  unfold streaksOfSortedIn, streaksOfSorted.
  destruct (sortedCheckInsOf _) as [|e rest]; [reflexivity|].
  now rewrite countBackwardsIn_fixed, getYesterdayDateStringIn_fixed.
Qed.

(** The longest streak is the same in every zone. *)
Lemma longestStreakIn_any_zone zone now habit :
  streaks_longestStreak (calculateStreaksIn zone now habit)
  = streaks_longestStreak (calculateStreaks now habit).
Proof.
  unfold calculateStreaksIn, calculateStreaks.
  destruct (checkIns habit); [reflexivity|].
  unfold streaksOfSortedIn, streaksOfSorted.
  destruct (sortedCheckInsOf _) as [|e rest]; [reflexivity|].
  destruct (scanHistory e rest 0 1). reflexivity.
Qed.

(** ** [calculateStreaks] reads the set of dates only *)

Lemma sameDates_nil log1 log2 : sameDates log1 log2 -> (log1 = [] <-> log2 = []).
Proof.
  intros E. pose proof (sortedCheckInsOf_ext _ _ E) as S.
  split; intros H; apply sortedCheckInsOf_empty.
  - rewrite <- S. now apply sortedCheckInsOf_nil.
  - rewrite S. now apply sortedCheckInsOf_nil.
Qed.

Lemma calculateStreaks_sameDates now habit1 habit2 :
  sameDates (checkIns habit1) (checkIns habit2) ->
  calculateStreaks now habit1 = calculateStreaks now habit2.
Proof.
  intros E. unfold calculateStreaks.
  rewrite (sortedCheckInsOf_ext _ _ E).
  pose proof (sameDates_nil _ _ E) as [N1 N2].
  destruct (checkIns habit1) as [|a l1] eqn:E1.
  - now rewrite (N1 eq_refl).
  - destruct (checkIns habit2) as [|b l2] eqn:E2; [|reflexivity].
    discriminate (N2 eq_refl).
Qed.

Lemma sameDates_refl log : sameDates log log.
Proof. intros d. reflexivity. Qed.

(** ** [findIndex] and [splice] *)

Lemma findIndex_Some p l : forall i,
  findIndex p l = Some i ->
  exists pre x suf,
    l = pre ++ x :: suf /\ splice1 i l = pre ++ suf /\ p x = true /\
    Forall (fun y => p y = false) pre.
Proof.
  induction l as [|y l IH]; intros i H; [discriminate|].
  simpl in H. destruct (p y) eqn:Py.
  - injection H as <-. exists [], y, l. repeat split; auto.
  - destruct (findIndex p l) as [j|]; [|discriminate].
    injection H as <-. destruct (IH j eq_refl) as (pre & x & suf & -> & Es & Px & F).
    exists (y :: pre), x, suf. simpl. rewrite Es. repeat split; auto.
Qed.

Lemma findIndex_None p l :
  findIndex p l = None -> Forall (fun y => p y = false) l.
Proof.
  induction l as [|y l IH]; intros H; [constructor|].
  simpl in H. destruct (p y) eqn:Py; [discriminate|].
  destruct (findIndex p l); [discriminate|]. constructor; auto.
Qed.

Lemma findIndex_app_first p pre x suf :
  Forall (fun y => p y = false) pre -> p x = true ->
  findIndex p (pre ++ x :: suf) = Some (List.length pre).
Proof.
  intros F Px. induction F as [|y pre Py F IH]; simpl.
  - now rewrite Px.
  - now rewrite Py, IH.
Qed.

Lemma splice1_app pre x suf : splice1 (List.length pre) (pre ++ x :: suf) = pre ++ suf.
Proof. induction pre as [|y pre IH]; simpl; [reflexivity|now rewrite IH]. Qed.

(** ** The check-in toggle *)

Lemma todayString_datePart now : datePart (getTodayDateString now) = getTodayDateString now.
Proof. rewrite getTodayDateString_isoDay. apply datePart_isoDay. Qed.

Lemma absent_not_included now log :
  Forall (fun y => (datePart y =? getTodayDateString now)%string = false) log ->
  includes log (getTodayDateString now) = false.
Proof.
  intros F. destruct (includes log (getTodayDateString now)) eqn:I; [|reflexivity].
  apply includes_In in I. rewrite Forall_forall in F. specialize (F _ I).
  rewrite todayString_datePart, String.eqb_refl in F. discriminate.
Qed.

Lemma absent_not_in now log :
  Forall (fun y => (datePart y =? getTodayDateString now)%string = false) log <->
  ~ In (getTodayDateString now) (map datePart log).
Proof.
  rewrite Forall_forall. split.
  - intros F I. apply in_map_iff in I as (y & E & Iy).
    specialize (F y Iy). rewrite E, String.eqb_refl in F. discriminate.
  - intros N y Iy. apply String.eqb_neq. intros E. apply N. rewrite <- E. now apply in_map.
Qed.

(** The log after a toggle. *)
Lemma toggleHabit_checkIns now habit :
  let today := getTodayDateString now in
  (exists pre x suf,
      checkIns habit = pre ++ x :: suf /\ datePart x = today /\
      ~ In today (map datePart pre) /\
      checkIns (toggleHabit now habit) = pre ++ suf) \/
  (~ In today (map datePart (checkIns habit)) /\
   checkIns (toggleHabit now habit) = checkIns habit ++ [today]).
Proof.
  cbv zeta. unfold toggleHabit. cbn [updateStreaks checkIns setCheckIns].
  destruct (findIndex _ (checkIns habit)) as [i|] eqn:E.
  - left. apply findIndex_Some in E as (pre & x & suf & El & Es & Px & F).
    exists pre, x, suf. apply String.eqb_eq in Px.
    repeat split; auto. now apply absent_not_in.
  - right. apply findIndex_None in E.
    rewrite (absent_not_included now _ E). cbn [negb].
    split; [now apply absent_not_in|reflexivity].
Qed.

Lemma toggleHabit_streaks now habit :
  currentStreak (toggleHabit now habit)
  = streaks_currentStreak (calculateStreaks now (toggleHabit now habit)) /\
  longestStreak (toggleHabit now habit)
  = streaks_longestStreak (calculateStreaks now (toggleHabit now habit)).
Proof.
  unfold toggleHabit.
  set (h := setCheckIns habit _).
  unfold updateStreaks. cbn [currentStreak longestStreak].
  assert (E : calculateStreaks now
                (mkHabit (id h) (name h) (checkIns h)
                   (streaks_currentStreak (calculateStreaks now h))
                   (streaks_longestStreak (calculateStreaks now h)) (createdAt h))
              = calculateStreaks now h) by reflexivity.
  rewrite E. split; reflexivity.
Qed.

Lemma toggle_invariant now habit :
  oneEntryPerDate (checkIns habit) ->
  oneEntryPerDate (checkIns (toggleHabit now habit)).
Proof.
  unfold oneEntryPerDate. intros ND.
  destruct (toggleHabit_checkIns now habit) as
    [(pre & x & suf & El & Ex & Npre & ->)|[N ->]].
  - rewrite El, map_app in ND. cbn [map] in ND.
    rewrite map_app. eapply NoDup_remove_1; eassumption.
  - rewrite map_app. cbn [map]. rewrite todayString_datePart.
    apply NoDup_rev in ND. rewrite <- (rev_involutive (_ ++ _)).
    apply NoDup_rev. rewrite rev_app_distr. cbn [rev app].
    constructor; [|exact ND]. now rewrite <- in_rev.
Qed.

Lemma split_at_pushed l : forall t pre x suf,
  l ++ [t] = pre ++ x :: suf -> ~ In t (map datePart l) -> datePart x = t ->
  pre = l /\ suf = [].
Proof.
  induction l as [|a l IH]; intros t pre x suf E N Ex.
  - destruct pre as [|p pre]; cbn [app] in E.
    + injection E as _ <-. now split.
    + injection E as _ E. destruct pre; discriminate.
  - destruct pre as [|p pre]; cbn [app] in E.
    + injection E as <- _. exfalso. apply N. cbn [map]. left. exact Ex.
    + injection E as <- E.
      destruct (IH t pre x suf E) as [-> ->]; auto.
      intros C. apply N. cbn [map]. now right.
Qed.

(** Two toggles on the same day. *)
Lemma toggle_twice_checkIns now habit :
  oneEntryPerDate (checkIns habit) ->
  sameDates (checkIns (toggleHabit now (toggleHabit now habit))) (checkIns habit).
Proof.
  unfold oneEntryPerDate. intros ND.
  destruct (toggleHabit_checkIns now habit) as
    [(pre & x & suf & El & Ex & Npre & E1)|[N E1]].
  - assert (N1 : ~ In (getTodayDateString now) (map datePart (checkIns (toggleHabit now habit)))).
    { rewrite E1. rewrite El, map_app in ND. cbn [map] in ND. rewrite Ex in ND.
      rewrite map_app. eapply NoDup_remove_2; eassumption. }
    destruct (toggleHabit_checkIns now (toggleHabit now habit)) as
      [(pre' & x' & suf' & El' & Ex' & _ & _)|[_ E2]].
    + exfalso. apply N1. rewrite El', map_app. cbn [map]. rewrite Ex'.
      apply in_or_app. right. now left.
    + rewrite E2, E1, El. intros d. rewrite !map_app. cbn [map].
      rewrite todayString_datePart, Ex, !in_app_iff. simpl. tauto.
  - destruct (toggleHabit_checkIns now (toggleHabit now habit)) as
      [(pre' & x' & suf' & El' & Ex' & Npre' & E2)|[N2 _]].
    + rewrite E1 in El'. rewrite E2.
      destruct (split_at_pushed _ _ _ _ _ El' N Ex') as [-> ->].
      rewrite app_nil_r. apply sameDates_refl.
    + exfalso. apply N2. rewrite E1, map_app. cbn [map].
      rewrite todayString_datePart. apply in_or_app. right. now left.
Qed.

(** ** The rollover handler *)

Lemma existsb_map_snd now hs :
  existsb snd (map (rolloverHabit now) hs) = existsb (needsUpdate now) hs.
Proof.
  induction hs as [|h hs IH]; [reflexivity|].
  cbn [map existsb]. now rewrite IH.
Qed.

Lemma rolloverHabit_unflagged now habit :
  needsUpdate now habit = false -> fst (rolloverHabit now habit) = habit.
Proof.
  unfold needsUpdate, rolloverHabit.
  destruct (checkIns habit); [reflexivity|].
  destruct (sortDesc _); [reflexivity|].
  destruct (numGt _ 1); [discriminate|reflexivity].
Qed.

Lemma rolloverHabit_flagged now habit :
  needsUpdate now habit = true ->
  fst (rolloverHabit now habit) = updateStreaks now habit.
Proof.
  unfold needsUpdate, rolloverHabit.
  destruct (checkIns habit); [discriminate|].
  destruct (sortDesc _); [discriminate|].
  destruct (numGt _ 1); [reflexivity|discriminate].
Qed.

Lemma rollover_unflagged_habits now hs :
  existsb (needsUpdate now) hs = false ->
  map fst (map (rolloverHabit now) hs) = hs.
Proof.
  induction hs as [|h hs IH]; [reflexivity|].
  cbn [existsb map]. intros H. apply orb_false_elim in H as [H1 H2].
  now rewrite rolloverHabit_unflagged, IH.
Qed.

Lemma setHabits_same app : setHabits app (habits (state app)) = app.
Proof. destruct app as [[hs d] ls]. reflexivity. Qed.

(** Without a habit to recalculate the handler changes nothing. *)
Lemma handleDateRollover_idle now app :
  existsb (needsUpdate now) (habits (state app)) = false ->
  handleDateRollover now app = app.
Proof.
  intros H. unfold handleDateRollover. rewrite existsb_map_snd, H.
  rewrite rollover_unflagged_habits by exact H. apply setHabits_same.
Qed.

Lemma handleDateRollover_saving now app :
  existsb (needsUpdate now) (habits (state app)) = true ->
  handleDateRollover now app =
  saveHabitsToStorage now
    (setHabits app (map fst (map (rolloverHabit now) (habits (state app))))).
Proof.
  intros H. unfold handleDateRollover. now rewrite existsb_map_snd, H.
Qed.

(** ** Arrays as objects *)

Lemma nth_setNth_other (s : Heap.Store) : forall r r' a,
  r <> r' -> nth r (Heap.setNth r' a s) [] = nth r s [].
Proof.
  induction s as [|x s IH]; intros r r' a N; [now destruct r'|].
  destruct r' as [|r'], r as [|r]; cbn; try reflexivity; try contradiction.
  apply IH. congruence.
Qed.

Lemma nth_setNth_same (s : Heap.Store) : forall r a,
  (r < List.length s)%nat -> nth r (Heap.setNth r a s) [] = a.
Proof.
  induction s as [|x s IH]; intros r a H; [cbn in H; lia|].
  destruct r as [|r]; cbn; [reflexivity|]. apply IH. cbn in H. lia.
Qed.

Lemma nth_alloc_old (s : Heap.Store) a r :
  (r < List.length s)%nat -> nth r (s ++ [a]) [] = nth r s [].
Proof. intros H. now apply app_nth1. Qed.

Lemma nth_alloc_new (s : Heap.Store) a : nth (List.length s) (s ++ [a]) [] = a.
Proof. rewrite app_nth2 by lia. now rewrite Nat.sub_diag. Qed.

Lemma setNth_alloc_new (s : Heap.Store) a b :
  Heap.setNth (List.length s) a (s ++ [b]) = s ++ [a].
Proof. induction s as [|x s IH]; cbn; [reflexivity|]. now rewrite IH. Qed.

(** What [Heap.calculateStreaks] returns and the store it leaves. *)
Lemma heap_calculateStreaks_run now habit (s : Heap.Store) :
  let log := nth (Heap.o_checkIns habit) s [] in
  Heap.calculateStreaks now habit s =
  (calculateStreaks now (Heap.valueOf s habit),
   match log with
   | [] => s
   | _ :: _ =>
       s ++ [log] ++ [map datePart log] ++ [sortedCheckInsOf log]
   end).
Proof.
  cbv zeta. unfold Heap.calculateStreaks, calculateStreaks, Heap.valueOf.
  cbn [checkIns]. unfold Heap.bind at 1. unfold Heap.read at 1.
  destruct (nth (Heap.o_checkIns habit) s []) as [|e log] eqn:L; [reflexivity|].
  unfold Heap.spread, Heap.mapArray, Heap.filterFirst, Heap.sortInPlace,
    Heap.bind, Heap.read, Heap.alloc, Heap.write, Heap.ret.
  rewrite !L, !nth_alloc_new, setNth_alloc_new, nth_alloc_new.
  unfold sortedCheckInsOf. now rewrite <- !app_assoc.
Qed.

(** * Main results *)

Lemma jan16_clockOk : clockOk jan16.
Proof. unfold clockOk, jan16, maxTime, msPerDay. lia. Qed.

(** C1 (the code departs from it).  On the first poll after midnight the
    rollover handler leaves a habit whose last check-in was yesterday with
    the streak of the day before: the stored current streak stays 2 where
    [calculateStreaks] gives 0 for the new day. *)
Theorem rollover_keeps_yesterdays_streak :
  hasDateChanged jan16 eveningApp = true /\
  map currentStreak (habits (state (periodicCheck jan16 eveningApp))) = [2] /\
  map (fun h => streaks_currentStreak (calculateStreaks jan16 h))
      (habits (state (periodicCheck jan16 eveningApp))) = [0].
Proof. vm_compute. repeat split; reflexivity. Qed.

Lemma needsUpdate_no_checkIns now habit :
  checkIns habit = [] -> needsUpdate now habit = false.
Proof. intros E. unfold needsUpdate, rolloverHabit. now rewrite E. Qed.

Lemma rollover_results now hs :
  Forall2 (fun h h' => h' = if needsUpdate now h then updateStreaks now h else h)
          hs (map (fun h => fst (rolloverHabit now h)) hs).
Proof.
  induction hs as [|h hs IH]; cbn [map]; constructor; [|exact IH].
  destruct (needsUpdate now h) eqn:E.
  - now apply rolloverHabit_flagged.
  - now apply rolloverHabit_unflagged.
Qed.

(** C2, as stated, fails: with no habits a rollover run has nothing to
    recalculate and nothing to save, and the stored date stays that of
    the day before. *)
Lemma rollover_date_counterexample :
  ~ (forall now app,
       hasDateChanged now app = true ->
       habitTrackerLastCheckedDate (localStorage (periodicCheck now app))
       = Some (getTodayDateString now)).
Proof.
  intros H. specialize (H jan16 emptyApp eq_refl).
  vm_compute in H. discriminate.
Qed.

(** C2 (amended).  Every save stores today's date.  The rollover handler
    recalculates the habits it flags and no others; it saves, and so
    stores today's date in [localStorage] and in [state], exactly when it
    recalculated some habit, and otherwise leaves the whole application
    as it was, which is always so when no habit has a check-in. *)
Theorem rollover_date_follows_save (now : Z) (app : App) :
  habitTrackerLastCheckedDate (localStorage (saveHabitsToStorage now app))
    = Some (getTodayDateString now) /\
  lastCheckedDate (state (saveHabitsToStorage now app))
    = Some (getTodayDateString now) /\
  Forall2 (fun h h' => h' = if needsUpdate now h then updateStreaks now h else h)
          (habits (state app)) (habits (state (handleDateRollover now app))) /\
  (if existsb (needsUpdate now) (habits (state app))
   then habitTrackerLastCheckedDate (localStorage (handleDateRollover now app))
          = Some (getTodayDateString now) /\
        lastCheckedDate (state (handleDateRollover now app))
          = Some (getTodayDateString now)
   else handleDateRollover now app = app) /\
  (Forall (fun h => checkIns h = []) (habits (state app)) ->
   handleDateRollover now app = app).
Proof.
  split; [reflexivity|]. split; [reflexivity|]. split; [|split].
  - unfold handleDateRollover. rewrite map_map.
    destruct (existsb snd _); apply rollover_results.
  - destruct (existsb (needsUpdate now) (habits (state app))) eqn:E.
    + rewrite (handleDateRollover_saving now app E). split; reflexivity.
    + now apply handleDateRollover_idle.
  - intros F. apply handleDateRollover_idle.
    induction F as [|h hs Hh F IH]; [reflexivity|].
    cbn [existsb]. now rewrite (needsUpdate_no_checkIns now h Hh), IH.
Qed.

(** C3 (the code departs from it).  In New York at 23:30 UTC on
    2024-03-10, the day the clocks went forward, one local day back from
    now is still the 10th in UTC: yesterday's date string is today's, the
    check-in of the 9th is not the expected date, and the current streak
    of a log with today and yesterday is 1. *)
Theorem current_streak_stops_at_clock_change :
  getTodayDateString march10 = "2024-03-10" /\
  getYesterdayDateStringIn newYork2024 march10 = "2024-03-10" /\
  calculateStreaksIn newYork2024 march10
    (habitWithLog ["2024-03-10"; "2024-03-09"]) = mkStreaks 1 2.
Proof. vm_compute. repeat split. Qed.

(** In a time zone of fixed offset, for a log of calendar dates: the
    sorted view lists the days of the log newest first; the current
    streak is 0 exactly when its first entry is not today, and in general
    it is the number [k] such that the first [k] entries are today,
    yesterday, ..., and entry [k] is not the day expected next. *)
Theorem current_streak_counts_back (now : Z) (habit : Habit) :
  clockOk now -> wellFormedLog (checkIns habit) ->
  let sorted := sortedCheckInsOf (checkIns habit) in
  let current := streaks_currentStreak (calculateStreaks now habit) in
  newestFirst (checkIns habit) sorted /\
  (current = 0 <-> nth_error sorted 0 <> Some (getTodayDateString now)) /\
  exists k : nat,
    current = Z.of_nat k /\
    (forall i : nat, (i < k)%nat ->
       nth_error sorted i = Some (isoDay (Day now - Z.of_nat i))) /\
    nth_error sorted k <> Some (isoDay (Day now - Z.of_nat k)).
Proof.
  intros C W. cbv zeta.
  destruct (current_streak_days now habit C W) as (k & Ek & Pk & Sk).
  split; [now apply sortedCheckInsOf_newestFirst|].
  split; [|now exists k].
  rewrite getTodayDateString_isoDay, Ek. split.
  - intros Z0. assert (k = O) by lia. subst k.
    now rewrite Z.sub_0_r in Sk.
  - intros N. destruct k as [|k]; [reflexivity|].
    exfalso. apply N. rewrite (Pk O) by lia. now rewrite Z.sub_0_r.
Qed.

(** C4.  For a log of calendar dates the longest streak is the length of
    the longest run of consecutive days with a check-in: no run is
    longer, some run is that long; it does not depend on the clock, it is
    0 for the empty log and 1 for a log of one entry. *)
Theorem longest_streak_is_longest_run (now : Z) (habit : Habit) :
  wellFormedLog (checkIns habit) ->
  let longest := streaks_longestStreak (calculateStreaks now habit) in
  (forall first n, consecutiveRun (checkIns habit) first n -> n <= longest) /\
  (exists first, consecutiveRun (checkIns habit) first longest) /\
  (forall now', streaks_longestStreak (calculateStreaks now' habit) = longest) /\
  (checkIns habit = [] -> longest = 0) /\
  (forall entry, checkIns habit = [entry] -> longest = 1).
Proof.
  intros W. cbv zeta.
  destruct (longest_streak_runs now habit W) as [B A].
  repeat split.
  - exact B.
  - exact A.
  - intros now'. apply longest_independent.
  - intros E. now rewrite calculateStreaks_empty.
  - intros entry E. now apply (longest_single now habit entry).
Qed.

Lemma longest_streak_is_longest_run_witness :
  wellFormedLog ["2024-01-16"; "2024-01-15"; "2024-01-11"; "2024-01-12"; "2024-01-13"] /\
  forall first n,
    consecutiveRun ["2024-01-16"; "2024-01-15"; "2024-01-11"; "2024-01-12"; "2024-01-13"]
      first n ->
    n <= streaks_longestStreak
           (calculateStreaks jan16
              (habitWithLog ["2024-01-16"; "2024-01-15"; "2024-01-11"; "2024-01-12"; "2024-01-13"])).
Proof.
  assert (W : wellFormedLog ["2024-01-16"; "2024-01-15"; "2024-01-11"; "2024-01-12"; "2024-01-13"])
    by (repeat constructor).
  split; [exact W|].
  exact (proj1 (longest_streak_is_longest_run jan16
    (habitWithLog ["2024-01-16"; "2024-01-15"; "2024-01-11"; "2024-01-12"; "2024-01-13"]) W)).
Defined.

(** C5, as stated, fails: an entry that is no calendar date is not
    dropped.  A log that holds nothing else has a longest streak of 1,
    the empty log has 0. *)
Lemma malformed_entry_counterexample :
  ~ (forall now log entry,
       isCalendarDate (datePart entry) = false ->
       calculateStreaks now (habitWithLog (entry :: log))
       = calculateStreaks now (habitWithLog log)).
Proof.
  intros H. specialize (H jan16 [] "not-a-date" eq_refl).
  vm_compute in H. discriminate.
Qed.

(** C5 (amended).  Normalisation drops no entry for its form: the date
    part of every entry, a calendar date or not, is in the sorted view,
    and a log with an entry has a longest streak of at least 1. *)
Theorem malformed_entries_are_kept (now : Z) (habit : Habit) (entry : string) :
  In entry (checkIns habit) ->
  In (datePart entry) (sortedCheckInsOf (checkIns habit)) /\
  1 <= streaks_longestStreak (calculateStreaks now habit).
Proof.
  intros I. split.
  - apply sortedCheckInsOf_In. now apply in_map.
  - apply longest_nonempty. intros E. rewrite E in I. contradiction.
Qed.

Lemma malformed_entries_are_kept_witness :
  In "not-a-date" ["2024-01-16"; "not-a-date"] /\
  In (datePart "not-a-date") (sortedCheckInsOf ["2024-01-16"; "not-a-date"]).
Proof.
  assert (I : In "not-a-date" (checkIns (habitWithLog ["2024-01-16"; "not-a-date"])))
    by (simpl; auto).
  split; [exact I|].
  exact (proj1 (malformed_entries_are_kept jan16
                  (habitWithLog ["2024-01-16"; "not-a-date"]) "not-a-date" I)).
Defined.

(** C6 (the code departs from it).  In New York on 2024-11-05, two days
    after the clocks went back, the day before the check-in of the 4th
    comes out as the 2nd: the loop of the current streak counts the 5th,
    the 4th and the 2nd, and the current streak 3 is more than the
    longest streak 2. *)
Theorem current_streak_exceeds_longest :
  wellFormedLog ["2024-11-05"; "2024-11-04"; "2024-11-02"] /\
  getTodayDateString november5 = "2024-11-05" /\
  calculateStreaksIn newYork2024 november5
    (habitWithLog ["2024-11-05"; "2024-11-04"; "2024-11-02"]) = mkStreaks 3 2.
Proof.
  split; [repeat constructor|]. vm_compute. split; reflexivity.
Qed.

(** In a time zone of fixed offset, for a non-empty log of calendar
    dates: the longest streak is at least 1, neither streak is negative,
    and a positive current streak is at most the longest streak. *)
Theorem streak_bounds (now : Z) (habit : Habit) :
  clockOk now -> wellFormedLog (checkIns habit) -> checkIns habit <> [] ->
  let current := streaks_currentStreak (calculateStreaks now habit) in
  let longest := streaks_longestStreak (calculateStreaks now habit) in
  1 <= longest /\ 0 <= current /\ 0 <= longest /\
  (0 < current -> current <= longest).
Proof.
  intros C W N. cbv zeta.
  pose proof (longest_nonempty now habit N) as L1.
  pose proof (current_nonneg now habit) as C0.
  repeat split; try lia.
  intros _. now apply current_le_longest.
Qed.

(** C7.  Two logs that name the same calendar dates, however often and
    with or without time parts, give the same streaks. *)
Theorem duplicates_and_times_do_not_count (now : Z) (habit1 habit2 : Habit) :
  sameDates (checkIns habit1) (checkIns habit2) ->
  calculateStreaks now habit1 = calculateStreaks now habit2.
Proof. apply calculateStreaks_sameDates. Qed.

Lemma duplicates_and_times_do_not_count_witness :
  sameDates ["2024-01-16"; "2024-01-15"; "2024-01-16T09:30:00"]
            ["2024-01-15"; "2024-01-16"] /\
  calculateStreaks jan16
    (habitWithLog ["2024-01-16"; "2024-01-15"; "2024-01-16T09:30:00"])
  = calculateStreaks jan16 (habitWithLog ["2024-01-15"; "2024-01-16"]).
Proof.
  assert (E : sameDates
                (checkIns (habitWithLog ["2024-01-16"; "2024-01-15"; "2024-01-16T09:30:00"]))
                (checkIns (habitWithLog ["2024-01-15"; "2024-01-16"])))
    by (intros d; simpl; tauto).
  split; [exact E|].
  exact (duplicates_and_times_do_not_count jan16 _ _ E).
Defined.

(** C8, as stated, fails: two toggles leave the streaks of the log for
    today, which are not the stored ones when those were out of date. *)
Lemma toggle_twice_counterexample :
  ~ (forall now habit,
       oneEntryPerDate (checkIns habit) ->
       sameDates (checkIns (toggleHabit now (toggleHabit now habit)))
                 (checkIns habit) /\
       currentStreak (toggleHabit now (toggleHabit now habit))
       = currentStreak habit /\
       longestStreak (toggleHabit now (toggleHabit now habit))
       = longestStreak habit).
Proof.
  intros H.
  assert (ND : oneEntryPerDate (checkIns readingHabit)).
  { unfold oneEntryPerDate. simpl. repeat constructor; simpl; intuition discriminate. }
  destruct (H jan16 readingHabit ND) as (_ & C & _).
  vm_compute in C. discriminate.
Qed.

(** C8 (amended).  For a habit with at most one entry per calendar date,
    two toggles on the same day give back the calendar dates of the log
    and leave the streaks that [calculateStreaks] gives the original log
    today; these are the original streaks when those were up to date. *)
Theorem toggle_twice_restores (now : Z) (habit : Habit) :
  oneEntryPerDate (checkIns habit) ->
  let twice := toggleHabit now (toggleHabit now habit) in
  sameDates (checkIns twice) (checkIns habit) /\
  currentStreak twice = streaks_currentStreak (calculateStreaks now habit) /\
  longestStreak twice = streaks_longestStreak (calculateStreaks now habit) /\
  (streaksUpToDate now habit ->
   currentStreak twice = currentStreak habit /\
   longestStreak twice = longestStreak habit).
Proof.
  intros ND. cbv zeta.
  pose proof (toggle_twice_checkIns now habit ND) as E.
  destruct (toggleHabit_streaks now (toggleHabit now habit)) as [Ec El].
  rewrite (calculateStreaks_sameDates now _ habit E) in Ec, El.
  split; [exact E|]. split; [exact Ec|]. split; [exact El|].
  intros [Hc Hl]. split; congruence.
Qed.

Lemma toggle_twice_restores_witness :
  oneEntryPerDate ["2024-01-15"; "2024-01-16T09:30:00"; "2024-01-14"] /\
  sameDates
    (checkIns (toggleHabit jan16 (toggleHabit jan16
       (habitWithLog ["2024-01-15"; "2024-01-16T09:30:00"; "2024-01-14"]))))
    ["2024-01-15"; "2024-01-16T09:30:00"; "2024-01-14"].
Proof.
  assert (ND : oneEntryPerDate
                 (checkIns (habitWithLog ["2024-01-15"; "2024-01-16T09:30:00"; "2024-01-14"]))).
  { unfold oneEntryPerDate. simpl. repeat constructor; simpl; intuition discriminate. }
  split; [exact ND|].
  exact (proj1 (toggle_twice_restores jan16 _ ND)).
Defined.

(** C9.  The toggle keeps the log at one entry per calendar date: an
    entry for today is taken out, after which today is no date of the
    log, and without one today is appended once. *)
Theorem toggle_keeps_one_entry_per_date (now : Z) (habit : Habit) :
  oneEntryPerDate (checkIns habit) ->
  let today := getTodayDateString now in
  let after := checkIns (toggleHabit now habit) in
  oneEntryPerDate after /\
  (In today (map datePart (checkIns habit)) ->
   ~ In today (map datePart after) /\
   forall d, d <> today ->
     (In d (map datePart after) <-> In d (map datePart (checkIns habit)))) /\
  (~ In today (map datePart (checkIns habit)) ->
   after = checkIns habit ++ [today]).
Proof.
  intros ND. cbv zeta. split; [now apply toggle_invariant|].
  unfold oneEntryPerDate in ND.
  destruct (toggleHabit_checkIns now habit) as
    [(pre & x & suf & El & Ex & Npre & ->)|[N ->]].
  - split.
    + intros _. rewrite El, map_app in ND. cbn [map] in ND. rewrite Ex in ND.
      split.
      * rewrite map_app. eapply NoDup_remove_2; eassumption.
      * intros d Hd. rewrite El, !map_app. cbn [map]. rewrite Ex, !in_app_iff.
        simpl. split; [tauto|]. intros [H|[H|H]]; auto. congruence.
    + intros N. exfalso. apply N. rewrite El, map_app. cbn [map]. rewrite Ex.
      apply in_or_app. right. now left.
  - split; [intros I; contradiction|reflexivity].
Qed.

Lemma toggle_keeps_one_entry_per_date_witness :
  oneEntryPerDate ["2024-01-15"; "2024-01-16T09:30:00"] /\
  oneEntryPerDate
    (checkIns (toggleHabit jan16 (habitWithLog ["2024-01-15"; "2024-01-16T09:30:00"]))).
Proof.
  assert (ND : oneEntryPerDate
                 (checkIns (habitWithLog ["2024-01-15"; "2024-01-16T09:30:00"]))).
  { unfold oneEntryPerDate. simpl. repeat constructor; simpl; intuition discriminate. }
  split; [exact ND|].
  exact (proj1 (toggle_keeps_one_entry_per_date jan16 _ ND)).
Defined.

(** C10.  Refreshing the streaks of a habit object leaves [id], [name],
    [createdAt] and the reference [checkIns] as they were and changes no
    array that was in the store: the sort works on an array made for it.
    The object afterwards stands for [updateStreaks] of the habit, which
    only differs from it in the two streak fields. *)
Theorem updateStreaks_frame (now : Z) (habit : Heap.HabitObject) (store : Heap.Store) :
  let habit' := fst (Heap.updateStreaks now habit store) in
  let store' := snd (Heap.updateStreaks now habit store) in
  Heap.o_id habit' = Heap.o_id habit /\
  Heap.o_name habit' = Heap.o_name habit /\
  Heap.o_checkIns habit' = Heap.o_checkIns habit /\
  Heap.o_createdAt habit' = Heap.o_createdAt habit /\
  (forall r, (r < List.length store)%nat -> nth r store' [] = nth r store []) /\
  Heap.valueOf store' habit' = updateStreaks now (Heap.valueOf store habit) /\
  (forall h : Habit,
     id (updateStreaks now h) = id h /\ name (updateStreaks now h) = name h /\
     checkIns (updateStreaks now h) = checkIns h /\
     createdAt (updateStreaks now h) = createdAt h).
Proof.
  cbv zeta. unfold Heap.updateStreaks, Heap.bind, Heap.ret.
  rewrite heap_calculateStreaks_run. cbn [fst snd Heap.o_id Heap.o_name
    Heap.o_checkIns Heap.o_createdAt].
  assert (Old : forall r, (r < List.length store)%nat ->
            nth r match nth (Heap.o_checkIns habit) store [] with
                  | [] => store
                  | _ :: _ => store ++ [nth (Heap.o_checkIns habit) store []] ++
                      [map datePart (nth (Heap.o_checkIns habit) store [])] ++
                      [sortedCheckInsOf (nth (Heap.o_checkIns habit) store [])]
                  end [] = nth r store []).
  { intros r Hr. destruct (nth (Heap.o_checkIns habit) store []); [reflexivity|].
    now apply app_nth1. }
  repeat split; try reflexivity.
  - exact Old.
  - unfold Heap.valueOf, updateStreaks. cbn.
    f_equal.
    destruct (Nat.lt_ge_cases (Heap.o_checkIns habit) (List.length store)) as [L|G].
    + now apply Old.
    + assert (E0 : nth (Heap.o_checkIns habit) store [] = [])
        by now apply nth_overflow.
      rewrite !E0. reflexivity.
Qed.

(** * Further properties of the script *)

(** ** Date utilities *)

Lemma isoDay_inRange_inj a b :
  dayInRange a -> dayInRange b -> isoDay a = isoDay b -> a = b.
Proof.
  intros Ra Rb E. pose proof (parse_isoDay a Ra) as Pa.
  rewrite E, (parse_isoDay b Rb) in Pa. injection Pa as Pa.
  unfold msPerDay in Pa. lia.
Qed.

Lemma isoDay_not_empty day : isoDay day <> "".
Proof.
  intros E. pose proof (length_isoDay day) as L. rewrite E in L.
  destruct ((0 <=? YearFromDay day) && (YearFromDay day <=? 9999)); discriminate.
Qed.

(** X1.  The day difference does not depend on the order of its two
    arguments, and it is [NaN] exactly when one of them is an Invalid
    Date. *)
Theorem getDaysDifference_symmetric (date1 date2 : string) :
  getDaysDifference date1 date2 = getDaysDifference date2 date1 /\
  (getDaysDifference date1 date2 = None <->
   parse date1 = None \/ parse date2 = None).
Proof.
  unfold getDaysDifference.
  destruct (parse date1) as [d1|], (parse date2) as [d2|]; split;
    try reflexivity; try (split; [discriminate|intros [H|H]; discriminate]);
    try (split; auto; fail).
  do 2 f_equal. lia.
Qed.

(** X2.  Between two calendar dates the difference is a whole number of
    days, not negative, and 0 only for one and the same date. *)
Theorem getDaysDifference_calendar (date1 date2 : string) :
  isCalendarDate date1 = true -> isCalendarDate date2 = true ->
  exists n, getDaysDifference date1 date2 = Some n /\ 0 <= n /\
            (n = 0 <-> date1 = date2).
Proof.
  intros H1 H2.
  apply isCalendarDate_spec in H1 as (a & Fa & ->).
  apply isCalendarDate_spec in H2 as (b & Fb & ->).
  exists (Z.abs (b - a)).
  rewrite getDaysDifference_isoDay by now apply fourDigit_inRange.
  split; [reflexivity|]. split; [lia|]. split.
  - intros Z0. f_equal. lia.
  - intros E. apply isoDay_inj in E; [lia|assumption|assumption].
Qed.

Lemma getDaysDifference_calendar_witness :
  isCalendarDate "2024-02-28" = true /\ isCalendarDate "2024-03-01" = true /\
  exists n, getDaysDifference "2024-02-28" "2024-03-01" = Some n /\ 0 <= n /\
            (n = 0 <-> "2024-02-28" = "2024-03-01").
Proof.
  split; [reflexivity|]. split; [reflexivity|].
  apply (getDaysDifference_calendar "2024-02-28" "2024-03-01"); reflexivity.
Defined.

(** X3.  With a valid clock yesterday's date string is one day from
    today's; it is not today, and today is not yesterday. *)
Theorem yesterday_is_one_day_before (now : Z) :
  clockOk now ->
  getDaysDifference (getYesterdayDateString now) (getTodayDateString now) = Some 1 /\
  isToday now (getYesterdayDateString now) = false /\
  isYesterday now (getTodayDateString now) = false.
Proof.
  intros C. destruct (clockOk_today now C) as [R0 R1].
  unfold isToday, isYesterday.
  rewrite getTodayDateString_isoDay, getYesterdayDateString_isoDay.
  rewrite getDaysDifference_isoDay by assumption.
  split; [f_equal; lia|].
  split; apply String.eqb_neq; intros E; apply isoDay_inRange_inj in E;
    try assumption; lia.
Qed.

Lemma yesterday_is_one_day_before_witness :
  clockOk jan16 /\
  getDaysDifference (getYesterdayDateString jan16) (getTodayDateString jan16) = Some 1.
Proof.
  assert (C : clockOk jan16) by (unfold clockOk, jan16, maxTime, msPerDay; lia).
  split; [exact C|]. exact (proj1 (yesterday_is_one_day_before jan16 C)).
Defined.

(** X4.  While the clock is in the years 0000 to 9999 today's date string
    is a calendar date in the form [YYYY-MM-DD], and it has no time part
    to strip. *)
Theorem today_is_a_calendar_date (now : Z) :
  fourDigit (Day now) ->
  isCalendarDate (getTodayDateString now) = true /\
  String.length (getTodayDateString now) = 10%nat /\
  datePart (getTodayDateString now) = getTodayDateString now.
Proof.
  intros F. rewrite getTodayDateString_isoDay. split; [|split].
  - apply isCalendarDate_spec. now exists (Day now).
  - now apply fourDigit_length.
  - apply datePart_isoDay.
Qed.

Lemma today_is_a_calendar_date_witness :
  fourDigit (Day jan16) /\ isCalendarDate (getTodayDateString jan16) = true.
Proof.
  assert (F : fourDigit (Day jan16)).
  { unfold fourDigit. rewrite firstDay_value, lastDay_value.
    vm_compute. split; discriminate. }
  split; [exact F|]. exact (proj1 (today_is_a_calendar_date jan16 F)).
Defined.

(** ** Streak calculation *)

Lemma current_positive_head now habit :
  streaks_currentStreak (calculateStreaks now habit) <> 0 ->
  exists rest, sortedCheckInsOf (checkIns habit) = getTodayDateString now :: rest.
Proof.
  intros N. destruct (sortedCheckInsOf (checkIns habit)) as [|e rest] eqn:E.
  - apply sortedCheckInsOf_empty in E. rewrite calculateStreaks_empty in N by exact E.
    now contradiction N.
  - rewrite (calculateStreaks_sorted _ _ _ _ E) in N. cbn in N.
    unfold isToday in N. destruct (String.eqb_spec e (getTodayDateString now)) as [->|];
      [now exists rest|now contradiction N].
Qed.

Lemma isCheckedInToday_In now habit :
  isCheckedInToday now habit = true <->
  In (getTodayDateString now) (map datePart (checkIns habit)).
Proof.
  unfold isCheckedInToday. rewrite existsb_exists, in_map_iff. split.
  - intros (x & I & E). apply String.eqb_eq in E. now exists x.
  - intros (x & E & I). exists x. split; [exact I|now apply String.eqb_eq].
Qed.

Lemma unchecked_current_zero now habit :
  isCheckedInToday now habit = false ->
  streaks_currentStreak (calculateStreaks now habit) = 0.
Proof.
  intros H.
  destruct (Z.eq_dec (streaks_currentStreak (calculateStreaks now habit)) 0) as [|N];
    [assumption|].
  destruct (current_positive_head now habit N) as (rest & E).
  assert (I : In (getTodayDateString now) (sortedCheckInsOf (checkIns habit)))
    by (rewrite E; now left).
  apply sortedCheckInsOf_In, isCheckedInToday_In in I. congruence.
Qed.

(** X5.  A habit that is not checked in today has a current streak of 0,
    whatever else its log holds. *)
Theorem no_check_in_today_no_streak (now : Z) (habit : Habit) :
  isCheckedInToday now habit = false ->
  streaks_currentStreak (calculateStreaks now habit) = 0.
Proof. intros H. now apply unchecked_current_zero. Qed.

Lemma no_check_in_today_no_streak_witness :
  isCheckedInToday jan16 readingHabit = false /\
  streaks_currentStreak (calculateStreaks jan16 readingHabit) = 0.
Proof.
  split; [reflexivity|].
  apply (no_check_in_today_no_streak jan16 readingHabit). reflexivity.
Defined.

Lemma newer_entry_current_zero now habit entry :
  In entry (checkIns habit) ->
  newer (datePart entry) (getTodayDateString now) ->
  streaks_currentStreak (calculateStreaks now habit) = 0.
Proof.
  intros I Nw.
  destruct (Z.eq_dec (streaks_currentStreak (calculateStreaks now habit)) 0) as [|N];
    [assumption|].
  destruct (current_positive_head now habit N) as (rest & E).
  pose proof (sortedCheckInsOf_descending (checkIns habit)) as D.
  rewrite E in D. inversion D as [|? ? _ F]; subst.
  assert (Is : In (datePart entry) (sortedCheckInsOf (checkIns habit)))
    by (apply sortedCheckInsOf_In; now apply in_map).
  rewrite E in Is. destruct Is as [Eq|Ir].
  - rewrite <- Eq in Nw. now apply newer_irrefl in Nw.
  - rewrite Forall_forall in F. exfalso. exact (newer_asym _ _ Nw (F _ Ir)).
Qed.

Lemma checkedIn_fourDigit log day :
  wellFormedLog log -> checkedIn log day -> fourDigit day.
Proof.
  intros W C. unfold checkedIn in C. apply in_map_iff in C as (e & Ee & Ie).
  unfold wellFormedLog in W. rewrite Forall_forall in W. specialize (W e Ie).
  rewrite Ee in W. apply isCalendarDate_spec in W as (d' & F' & E').
  now rewrite (isoDay_calendar day d' F' E').
Qed.

(** On a log of calendar dates no entry sorts after today's date string
    when no check-in is dated after today. *)
Lemma no_later_day_not_newer now log :
  wellFormedLog log -> fourDigit (Day now) ->
  (forall day, checkedIn log day -> day <= Day now) ->
  forall d, In d (map datePart log) -> ~ newer d (getTodayDateString now).
Proof.
  intros W F Le d I Nw.
  pose proof I as I'. apply in_map_iff in I' as (e & Ee & Ie).
  unfold wellFormedLog in W. rewrite Forall_forall in W. specialize (W e Ie).
  rewrite Ee in W. apply isCalendarDate_spec in W as (dd & Fd & ->).
  rewrite getTodayDateString_isoDay in Nw.
  apply newer_isoDay in Nw; [|assumption|assumption].
  specialize (Le dd I). lia.
Qed.

(** X6.  On a log of calendar dates a check-in dated after today makes
    the current streak 0, even with a check-in today: only the most
    recent entry is compared with today. *)
Theorem later_check_in_no_streak (now : Z) (habit : Habit) (day : Z) :
  wellFormedLog (checkIns habit) ->
  checkedIn (checkIns habit) day -> Day now < day ->
  streaks_currentStreak (calculateStreaks now habit) = 0.
Proof.
  intros W C Lt.
  destruct (isCheckedInToday now habit) eqn:T;
    [|now apply unchecked_current_zero].
  apply isCheckedInToday_In in T. rewrite getTodayDateString_isoDay in T.
  pose proof (checkedIn_fourDigit _ _ W T) as Ft.
  pose proof (checkedIn_fourDigit _ _ W C) as Fd.
  unfold checkedIn in C. apply in_map_iff in C as (entry & Ee & Ie).
  apply (newer_entry_current_zero now habit entry Ie).
  rewrite Ee, getTodayDateString_isoDay. now apply newer_isoDay.
Qed.

Lemma later_check_in_no_streak_witness :
  wellFormedLog ["2024-01-16"; "2024-01-15"; "2024-01-17"] /\
  checkedIn ["2024-01-16"; "2024-01-15"; "2024-01-17"] 19739 /\
  Day jan16 < 19739 /\
  streaks_currentStreak
    (calculateStreaks jan16 (habitWithLog ["2024-01-16"; "2024-01-15"; "2024-01-17"])) = 0.
Proof.
  assert (W : wellFormedLog
                (checkIns (habitWithLog ["2024-01-16"; "2024-01-15"; "2024-01-17"])))
    by (repeat constructor).
  assert (C : checkedIn
                (checkIns (habitWithLog ["2024-01-16"; "2024-01-15"; "2024-01-17"])) 19739)
    by (unfold checkedIn; simpl; right; right; left; reflexivity).
  assert (L : Day jan16 < 19739) by reflexivity.
  split; [exact W|]. split; [exact C|]. split; [exact L|].
  exact (later_check_in_no_streak jan16 _ 19739 W C L).
Defined.

Lemma countBackwards_le rest : forall e c,
  countBackwards rest e c <= c + Z.of_nat (List.length rest).
Proof.
  induction rest as [|x rest IH]; intros e c; cbn [countBackwards List.length]; [lia|].
  destruct (numEq _ 0); [|lia]. destruct (parse x); [|lia].
  specialize (IH (datePart (toISOString (prevDay z))) (c + 1)). lia.
Qed.

Lemma scanHistory_le rest : forall prev L T, 1 <= T ->
  Z.max (fst (scanHistory prev rest L T)) (snd (scanHistory prev rest L T))
  <= Z.max L (T + Z.of_nat (List.length rest)).
Proof.
  induction rest as [|x rest IH]; intros prev L T HT;
    cbn [scanHistory List.length fst snd].
  - lia.
  - destruct (numEq _ 1).
    + specialize (IH x L (T + 1) ltac:(lia)). lia.
    + specialize (IH x (Z.max L T) 1 ltac:(lia)). lia.
Qed.

Lemma filterIndexed_length f l : forall i,
  (List.length (filterIndexed f i l) <= List.length l)%nat.
Proof.
  induction l as [|x l IH]; intros i; cbn [filterIndexed List.length]; [lia|].
  destruct (f x i); cbn [List.length]; specialize (IH (i + 1)); lia.
Qed.

Lemma removeDuplicates_length l :
  (List.length (removeDuplicates l) <= List.length l)%nat.
Proof. apply filterIndexed_length. Qed.

Lemma sortedCheckInsOf_length log :
  (List.length (sortedCheckInsOf log) <= List.length log)%nat.
Proof.
  unfold sortedCheckInsOf.
  rewrite (Permutation_length (sortDesc_perm _)).
  pose proof (removeDuplicates_length (map datePart log)) as H.
  now rewrite length_map in H.
Qed.

(** X7.  Neither streak is more than the number of entries of the log
    (indeed of its distinct dates). *)
Theorem streaks_at_most_log_length (now : Z) (habit : Habit) :
  let distinct := Z.of_nat (List.length (sortedCheckInsOf (checkIns habit))) in
  streaks_currentStreak (calculateStreaks now habit) <= distinct /\
  streaks_longestStreak (calculateStreaks now habit) <= distinct /\
  distinct <= Z.of_nat (List.length (checkIns habit)).
Proof.
  cbv zeta. pose proof (sortedCheckInsOf_length (checkIns habit)) as Len.
  destruct (sortedCheckInsOf (checkIns habit)) as [|e rest] eqn:E.
  - apply sortedCheckInsOf_empty in E. rewrite calculateStreaks_empty by exact E.
    cbn. lia.
  - rewrite (calculateStreaks_sorted _ _ _ _ E).
    cbn [streaks_currentStreak streaks_longestStreak List.length] in *.
    pose proof (countBackwards_le rest (getYesterdayDateString now) 1).
    pose proof (scanHistory_le rest e 0 1 ltac:(lia)).
    destruct (isToday now e); lia.
Qed.

(** X8.  Check-ins never lower the record: when a log of calendar dates
    has a check-in on every day of another, its longest streak is at
    least the other's. *)
Theorem longest_grows_with_the_log (now : Z) (habit1 habit2 : Habit) :
  wellFormedLog (checkIns habit1) -> wellFormedLog (checkIns habit2) ->
  (forall day, checkedIn (checkIns habit1) day -> checkedIn (checkIns habit2) day) ->
  streaks_longestStreak (calculateStreaks now habit1)
  <= streaks_longestStreak (calculateStreaks now habit2).
Proof.
  intros W1 W2 Sub.
  destruct (longest_streak_runs now habit1 W1) as [_ [first R]].
  destruct (longest_streak_runs now habit2 W2) as [B _].
  apply (B first). intros i Hi. apply Sub, R, Hi.
Qed.

Lemma longest_grows_with_the_log_witness :
  wellFormedLog ["2024-01-14"; "2024-01-12"] /\
  wellFormedLog ["2024-01-14"; "2024-01-12"; "2024-01-13"] /\
  streaks_longestStreak (calculateStreaks jan16 (habitWithLog ["2024-01-14"; "2024-01-12"]))
  <= streaks_longestStreak
       (calculateStreaks jan16 (habitWithLog ["2024-01-14"; "2024-01-12"; "2024-01-13"])).
Proof.
  assert (W1 : wellFormedLog (checkIns (habitWithLog ["2024-01-14"; "2024-01-12"])))
    by (repeat constructor).
  assert (W2 : wellFormedLog
                 (checkIns (habitWithLog ["2024-01-14"; "2024-01-12"; "2024-01-13"])))
    by (repeat constructor).
  split; [exact W1|]. split; [exact W2|].
  apply (longest_grows_with_the_log jan16 _ _ W1 W2).
  intros day. unfold checkedIn. simpl. tauto.
Defined.

(** ** The check-in toggle *)

Lemma head_is_today now log :
  In (getTodayDateString now) (map datePart log) ->
  (forall d, In d (map datePart log) -> ~ newer d (getTodayDateString now)) ->
  exists rest, sortedCheckInsOf log = getTodayDateString now :: rest.
Proof.
  intros I Old. pose proof (sortedCheckInsOf_descending log) as D.
  apply sortedCheckInsOf_In in I.
  destruct (sortedCheckInsOf log) as [|e rest] eqn:E; [contradiction|].
  inversion D as [|? ? _ F]; subst. rewrite Forall_forall in F.
  destruct I as [->|I]; [now exists rest|].
  exfalso. apply (Old e); [|now apply F].
  apply sortedCheckInsOf_In. rewrite E. now left.
Qed.

Lemma toggleHabit_flips now habit :
  oneEntryPerDate (checkIns habit) ->
  isCheckedInToday now (toggleHabit now habit)
  = negb (isCheckedInToday now habit).
Proof.
  intros ND. unfold oneEntryPerDate in ND.
  destruct (toggleHabit_checkIns now habit) as
    [(pre & x & suf & El & Ex & Npre & E1)|[N E1]].
  - assert (I : isCheckedInToday now habit = true).
    { apply isCheckedInToday_In. rewrite El, map_app. cbn [map]. rewrite Ex.
      apply in_or_app. right. now left. }
    rewrite I. cbn [negb].
    destruct (isCheckedInToday now (toggleHabit now habit)) eqn:C; [|reflexivity].
    apply isCheckedInToday_In in C. rewrite E1 in C.
    rewrite El, map_app in ND. cbn [map] in ND. rewrite Ex in ND.
    apply NoDup_remove_2 in ND. rewrite map_app in C. contradiction.
  - assert (I : isCheckedInToday now habit = false).
    { destruct (isCheckedInToday now habit) eqn:C; [|reflexivity].
      apply isCheckedInToday_In in C. contradiction. }
    rewrite I. cbn [negb]. apply isCheckedInToday_In.
    rewrite E1, map_app. cbn [map]. rewrite todayString_datePart.
    apply in_or_app. right. now left.
Qed.

(** X9.  With at most one entry per calendar date, the toggle flips
    whether the habit counts as checked in today. *)
Theorem toggle_flips_checked_in_today (now : Z) (habit : Habit) :
  oneEntryPerDate (checkIns habit) ->
  isCheckedInToday now (toggleHabit now habit)
  = negb (isCheckedInToday now habit).
Proof. intros ND. now apply toggleHabit_flips. Qed.

Lemma toggle_flips_checked_in_today_witness :
  oneEntryPerDate ["2024-01-15"; "2024-01-16T09:30:00"] /\
  isCheckedInToday jan16
    (toggleHabit jan16 (habitWithLog ["2024-01-15"; "2024-01-16T09:30:00"]))
  = negb (isCheckedInToday jan16 (habitWithLog ["2024-01-15"; "2024-01-16T09:30:00"])).
Proof.
  assert (ND : oneEntryPerDate
                 (checkIns (habitWithLog ["2024-01-15"; "2024-01-16T09:30:00"]))).
  { unfold oneEntryPerDate. simpl. repeat constructor; simpl; intuition discriminate. }
  split; [exact ND|]. exact (toggle_flips_checked_in_today jan16 _ ND).
Defined.

Lemma check_in_streak now habit :
  isCheckedInToday now habit = false ->
  (forall d, In d (map datePart (checkIns habit)) ->
             ~ newer d (getTodayDateString now)) ->
  checkIns (toggleHabit now habit) = checkIns habit ++ [getTodayDateString now] /\
  1 <= currentStreak (toggleHabit now habit) /\
  1 <= longestStreak (toggleHabit now habit).
Proof.
  intros NC Old.
  destruct (toggleHabit_checkIns now habit) as
    [(pre & x & suf & El & Ex & Npre & E1)|[N E1]].
  - exfalso. assert (I : isCheckedInToday now habit = true); [|congruence].
    apply isCheckedInToday_In. rewrite El, map_app. cbn [map]. rewrite Ex.
    apply in_or_app. right. now left.
  - split; [exact E1|].
    destruct (toggleHabit_streaks now habit) as [-> ->].
    split.
    + destruct (head_is_today now (checkIns (toggleHabit now habit))) as (rest & E).
      * rewrite E1, map_app. cbn [map]. rewrite todayString_datePart.
        apply in_or_app. right. now left.
      * intros d. rewrite E1, map_app, in_app_iff. cbn [map].
        rewrite todayString_datePart. intros [I|[<-|[]]]; [now apply Old|].
        apply newer_irrefl.
      * rewrite (calculateStreaks_sorted _ _ _ _ E). cbn [streaks_currentStreak].
        unfold isToday. rewrite String.eqb_refl. apply countBackwards_ge.
    + apply longest_nonempty. rewrite E1. now destruct (checkIns habit).
Qed.

(** X10.  Checking in: for a habit with a log of calendar dates, none
    of today and none dated after today, and a clock in the years 0000
    to 9999, the toggle appends today's date string, which leaves a log
    of calendar dates, a stored current streak of at least 1 and a
    longest streak of at least 1. *)
Theorem check_in_starts_or_extends_streak (now : Z) (habit : Habit) :
  wellFormedLog (checkIns habit) -> fourDigit (Day now) ->
  isCheckedInToday now habit = false ->
  (forall day, checkedIn (checkIns habit) day -> day <= Day now) ->
  checkIns (toggleHabit now habit) = checkIns habit ++ [getTodayDateString now] /\
  wellFormedLog (checkIns (toggleHabit now habit)) /\
  1 <= currentStreak (toggleHabit now habit) /\
  1 <= longestStreak (toggleHabit now habit).
Proof.
  intros W F NC Le.
  destruct (check_in_streak now habit NC (no_later_day_not_newer now _ W F Le))
    as (E & Hc & Hl).
  split; [exact E|]. split; [|split; assumption].
  rewrite E. unfold wellFormedLog. apply Forall_app. split; [exact W|].
  constructor; [|constructor].
  rewrite todayString_datePart, getTodayDateString_isoDay.
  apply isCalendarDate_spec. now exists (Day now).
Qed.

Lemma jan16_fourDigit : fourDigit (Day jan16).
Proof.
  unfold fourDigit. rewrite firstDay_value, lastDay_value.
  vm_compute. split; discriminate.
Qed.

Lemma readingHabit_days day :
  checkedIn (checkIns readingHabit) day -> day = 19736 \/ day = 19737.
Proof.
  intros [E|[E|[]]].
  - left. change (datePart "2024-01-14") with (isoDay 19736) in E. symmetry in E.
    apply isoDay_calendar in E; [exact E|].
    unfold fourDigit. rewrite firstDay_value, lastDay_value. lia.
  - right. change (datePart "2024-01-15") with (isoDay 19737) in E. symmetry in E.
    apply isoDay_calendar in E; [exact E|].
    unfold fourDigit. rewrite firstDay_value, lastDay_value. lia.
Qed.

Lemma check_in_starts_or_extends_streak_witness :
  wellFormedLog (checkIns readingHabit) /\ fourDigit (Day jan16) /\
  isCheckedInToday jan16 readingHabit = false /\
  1 <= currentStreak (toggleHabit jan16 readingHabit).
Proof.
  assert (W : wellFormedLog (checkIns readingHabit)) by (repeat constructor).
  assert (NC : isCheckedInToday jan16 readingHabit = false) by reflexivity.
  assert (Le : forall day, checkedIn (checkIns readingHabit) day -> day <= Day jan16).
  { intros day C. apply readingHabit_days in C.
    change (Day jan16) with 19738. lia. }
  split; [exact W|]. split; [exact jan16_fourDigit|]. split; [exact NC|].
  exact (proj1 (proj2 (proj2
    (check_in_starts_or_extends_streak jan16 readingHabit W jan16_fourDigit NC Le)))).
Defined.

(** X11.  Unchecking: with at most one entry per calendar date and an
    entry for today, the toggle leaves a stored current streak of 0. *)
Theorem uncheck_resets_current_streak (now : Z) (habit : Habit) :
  oneEntryPerDate (checkIns habit) ->
  isCheckedInToday now habit = true ->
  currentStreak (toggleHabit now habit) = 0.
Proof.
  intros ND C.
  destruct (toggleHabit_streaks now habit) as [-> _].
  apply unchecked_current_zero.
  rewrite (toggleHabit_flips now habit ND), C. reflexivity.
Qed.

Lemma uncheck_resets_current_streak_witness :
  oneEntryPerDate ["2024-01-15"; "2024-01-16T09:30:00"] /\
  isCheckedInToday jan16 (habitWithLog ["2024-01-15"; "2024-01-16T09:30:00"]) = true /\
  currentStreak
    (toggleHabit jan16 (habitWithLog ["2024-01-15"; "2024-01-16T09:30:00"])) = 0.
Proof.
  assert (ND : oneEntryPerDate
                 (checkIns (habitWithLog ["2024-01-15"; "2024-01-16T09:30:00"]))).
  { unfold oneEntryPerDate. simpl. repeat constructor; simpl; intuition discriminate. }
  assert (C : isCheckedInToday jan16
                (habitWithLog ["2024-01-15"; "2024-01-16T09:30:00"]) = true)
    by reflexivity.
  split; [exact ND|]. split; [exact C|].
  exact (uncheck_resets_current_streak jan16 _ ND C).
Defined.

(** ** Finding a habit by id *)

Lemma onFirst_Some f id0 hs : forall hs',
  onFirst f id0 hs = Some hs' ->
  exists pre h suf,
    hs = pre ++ h :: suf /\ id h = id0 /\ ~ In id0 (map id pre) /\
    hs' = pre ++ f h :: suf.
Proof.
  induction hs as [|x hs IH]; intros hs' H; [discriminate|].
  cbn [onFirst] in H. destruct (String.eqb_spec (id x) id0) as [E|N].
  - injection H as <-. exists [], x, hs. repeat split; auto.
  - destruct (onFirst f id0 hs) as [r|]; [|discriminate].
    injection H as <-. destruct (IH r eq_refl) as (pre & h & suf & -> & Ei & Np & ->).
    exists (x :: pre), h, suf. repeat split; auto.
    cbn [map]. intros [C|C]; [contradiction|contradiction].
Qed.

Lemma onFirst_None f id0 hs :
  onFirst f id0 hs = None <-> ~ In id0 (map id hs).
Proof.
  induction hs as [|x hs IH]; cbn [onFirst map]; [split; [auto|reflexivity]|].
  destruct (String.eqb_spec (id x) id0) as [E|N].
  - split; [discriminate|]. intros C. exfalso. apply C. now left.
  - destruct (onFirst f id0 hs) as [r|].
    + split; [discriminate|]. intros C. exfalso.
      assert (H : ~ In id0 (map id hs)) by (intros I; apply C; now right).
      apply IH in H. discriminate.
    + split; [|reflexivity]. intros _ [C|C]; [contradiction|].
      now apply (proj1 IH).
Qed.

(** X12.  [toggleCheckIn] with an id that no habit has changes nothing
    and saves nothing; otherwise it toggles the first habit with that
    id, leaves every other habit as it was and in place, and saves the
    list with today's date. *)
Theorem toggleCheckIn_touches_one_habit (now : Z) (id0 : string) (app : App) :
  let app' := toggleCheckIn now id0 app in
  (~ In id0 (map id (habits (state app))) -> app' = app) /\
  (In id0 (map id (habits (state app))) ->
   exists pre h suf,
     habits (state app) = pre ++ h :: suf /\ id h = id0 /\
     ~ In id0 (map id pre) /\
     habits (state app') = pre ++ toggleHabit now h :: suf /\
     habitTrackerData (localStorage app') = Some (habits (state app')) /\
     habitTrackerLastCheckedDate (localStorage app') = Some (getTodayDateString now)).
Proof.
  cbv zeta. unfold toggleCheckIn. split.
  - intros N. apply (onFirst_None (toggleHabit now)) in N. now rewrite N.
  - intros I. destruct (onFirst (toggleHabit now) id0 (habits (state app))) as [hs|] eqn:E.
    + destruct (onFirst_Some _ _ _ _ E) as (pre & h & suf & El & Ei & Np & ->).
      exists pre, h, suf. repeat split; auto.
    + apply onFirst_None in E. contradiction.
Qed.

(** X13.  When every habit has at most one entry per calendar date,
    so has every habit after [toggleCheckIn]. *)
Theorem toggleCheckIn_keeps_invariant (now : Z) (id0 : string) (app : App) :
  Forall (fun h => oneEntryPerDate (checkIns h)) (habits (state app)) ->
  Forall (fun h => oneEntryPerDate (checkIns h))
         (habits (state (toggleCheckIn now id0 app))).
Proof.
  intros F. unfold toggleCheckIn.
  destruct (onFirst (toggleHabit now) id0 (habits (state app))) as [hs|] eqn:E;
    [|exact F].
  destruct (onFirst_Some _ _ _ _ E) as (pre & h & suf & El & _ & _ & ->).
  cbn [saveHabitsToStorage setHabits state habits].
  rewrite El in F. apply Forall_app in F as [Fp Fs].
  inversion Fs as [|? ? Fh Fs']; subst.
  apply Forall_app. split; [exact Fp|].
  constructor; [now apply toggle_invariant|exact Fs'].
Qed.

Lemma toggleCheckIn_keeps_invariant_witness :
  Forall (fun h => oneEntryPerDate (checkIns h)) (habits (state eveningApp)) /\
  Forall (fun h => oneEntryPerDate (checkIns h))
         (habits (state (toggleCheckIn jan16 "h1" eveningApp))).
Proof.
  assert (F : Forall (fun h => oneEntryPerDate (checkIns h)) (habits (state eveningApp))).
  { repeat constructor; simpl; intuition discriminate. }
  split; [exact F|]. exact (toggleCheckIn_keeps_invariant jan16 "h1" eveningApp F).
Defined.

(** ** localStorage *)

Lemma updateStreaks_calculate now habit :
  calculateStreaks now (updateStreaks now habit) = calculateStreaks now habit.
Proof. reflexivity. Qed.

Lemma updateStreaks_upToDate now habit :
  streaksUpToDate now (updateStreaks now habit).
Proof. split; reflexivity. Qed.

Lemma updateStreaks_fixed now habit :
  streaksUpToDate now habit -> updateStreaks now habit = habit.
Proof.
  intros [Hc Hl]. unfold updateStreaks. rewrite <- Hc, <- Hl.
  now destruct habit.
Qed.

Lemma today_not_empty now : (getTodayDateString now =? "")%string = false.
Proof.
  apply String.eqb_neq. rewrite getTodayDateString_isoDay. apply isoDay_not_empty.
Qed.

Lemma hasDateChanged_saved now app :
  hasDateChanged now (saveHabitsToStorage now app) = false.
Proof.
  unfold hasDateChanged, saveHabitsToStorage.
  cbn [localStorage habitTrackerLastCheckedDate].
  now rewrite today_not_empty, String.eqb_refl.
Qed.

(** X15.  Date-change detection: no stored date counts as a change; right
    after a save there is none; and with valid clocks a save on one day
    is detected as a change on every other day. *)
Theorem hasDateChanged_after_save (now now' : Z) (app : App) :
  clockOk now -> clockOk now' ->
  (habitTrackerLastCheckedDate (localStorage app) = None ->
   hasDateChanged now app = true) /\
  hasDateChanged now (saveHabitsToStorage now app) = false /\
  (Day now' <> Day now ->
   hasDateChanged now' (saveHabitsToStorage now app) = true) /\
  (Day now' = Day now ->
   hasDateChanged now' (saveHabitsToStorage now app) = false).
Proof.
  intros C C'. split; [|split; [|split]].
  - intros E. unfold hasDateChanged. now rewrite E.
  - apply hasDateChanged_saved.
  - intros N. unfold hasDateChanged, saveHabitsToStorage.
    cbn [localStorage habitTrackerLastCheckedDate].
    rewrite today_not_empty.
    destruct (String.eqb_spec (getTodayDateString now) (getTodayDateString now')) as [E|];
      [|reflexivity].
    rewrite !getTodayDateString_isoDay in E.
    apply isoDay_inRange_inj in E; [congruence| |];
      [exact (proj1 (clockOk_today now C))|exact (proj1 (clockOk_today now' C'))].
  - intros E. unfold hasDateChanged, saveHabitsToStorage.
    cbn [localStorage habitTrackerLastCheckedDate].
    rewrite today_not_empty, !getTodayDateString_isoDay, E, String.eqb_refl.
    reflexivity.
Qed.

Lemma hasDateChanged_after_save_witness :
  clockOk jan16 /\ clockOk (jan16 + 86400000) /\
  hasDateChanged (jan16 + 86400000) (saveHabitsToStorage jan16 eveningApp) = true.
Proof.
  assert (C : clockOk jan16) by (unfold clockOk, jan16, maxTime, msPerDay; lia).
  assert (C' : clockOk (jan16 + 86400000))
    by (unfold clockOk, jan16, maxTime, msPerDay; lia).
  split; [exact C|]. split; [exact C'|].
  apply (proj1 (proj2 (proj2 (hasDateChanged_after_save jan16 (jan16 + 86400000)
                                eveningApp C C')))).
  vm_compute. discriminate.
Defined.

(** ** The rollover handler and start-up *)

(** X16.  The periodic check is idempotent: a second run at the same
    time changes nothing more. *)
Theorem periodicCheck_idempotent (now : Z) (app : App) :
  periodicCheck now (periodicCheck now app) = periodicCheck now app.
Proof.
  unfold periodicCheck at 2 3.
  destruct (hasDateChanged now app) eqn:H.
  - destruct (existsb (needsUpdate now) (habits (state app))) eqn:E.
    + rewrite (handleDateRollover_saving now app E).
      unfold periodicCheck. now rewrite hasDateChanged_saved.
    + rewrite (handleDateRollover_idle now app E).
      unfold periodicCheck. rewrite H. now apply handleDateRollover_idle.
  - unfold periodicCheck. now rewrite H.
Qed.

Lemma rolloverHabit_cases now habit :
  fst (rolloverHabit now habit) = habit \/
  fst (rolloverHabit now habit) = updateStreaks now habit.
Proof.
  destruct (needsUpdate now habit) eqn:E.
  - right. now apply rolloverHabit_flagged.
  - left. now apply rolloverHabit_unflagged.
Qed.

Lemma handleDateRollover_habits now app :
  habits (state (handleDateRollover now app))
  = map (fun h => fst (rolloverHabit now h)) (habits (state app)).
Proof.
  unfold handleDateRollover. rewrite map_map.
  destruct (existsb snd _); reflexivity.
Qed.

Lemma periodicCheck_habits now app :
  exists hs,
    habits (state (periodicCheck now app)) = hs /\
    Forall2 (fun h h' => h' = h \/ h' = updateStreaks now h) (habits (state app)) hs.
Proof.
  eexists. split; [reflexivity|].
  unfold periodicCheck. destruct (hasDateChanged now app).
  - rewrite handleDateRollover_habits.
    induction (habits (state app)) as [|h hs IH]; cbn [map]; constructor; auto.
    apply rolloverHabit_cases.
  - induction (habits (state app)) as [|h hs IH]; constructor; auto.
Qed.

(** X17.  The periodic check changes streak fields only: the habits keep
    their number and order, and each keeps its id, name, check-ins and
    creation time. *)
Theorem periodicCheck_changes_streaks_only (now : Z) (app : App) :
  let after := habits (state (periodicCheck now app)) in
  map id after = map id (habits (state app)) /\
  map name after = map name (habits (state app)) /\
  map checkIns after = map checkIns (habits (state app)) /\
  map createdAt after = map createdAt (habits (state app)).
Proof.
  cbv zeta. destruct (periodicCheck_habits now app) as (hs & -> & F).
  induction F as [|h h' l l' [->| ->] F IH]; [repeat split| |];
    destruct IH as (I1 & I2 & I3 & I4); cbn [map];
    rewrite I1, I2, I3, I4; repeat split.
Qed.

(** X18.  After [init] every habit in memory has the streaks that
    [calculateStreaks] gives its log for the day of the start. *)
Theorem init_leaves_streaks_up_to_date (now : Z) (app : App) :
  Forall (streaksUpToDate now) (habits (state (init now app))).
Proof.
  unfold init.
  set (loaded := loadHabitsFromStorage now app).
  assert (L : Forall (streaksUpToDate now) loaded).
  { unfold loaded, loadHabitsFromStorage.
    destruct (habitTrackerData (localStorage app)) as [stored|]; [|constructor].
    apply Forall_forall. intros h I. apply in_map_iff in I as (x & <- & _).
    apply updateStreaks_upToDate. }
  destruct (hasDateChanged now (setHabits app loaded)).
  - rewrite handleDateRollover_habits. cbn [setHabits state habits].
    apply Forall_forall. intros h I. apply in_map_iff in I as (x & <- & Ix).
    rewrite Forall_forall in L.
    destruct (rolloverHabit_cases now x) as [-> | ->];
      [now apply L|apply updateStreaks_upToDate].
  - exact L.
Qed.

(** X19.  A habit of calendar dates whose check-ins are all more than a
    day from today is recalculated by the rollover handler and ends with
    a stored current streak of 0. *)
Theorem rollover_resets_lapsed_habit (now : Z) (habit : Habit) :
  clockOk now -> wellFormedLog (checkIns habit) -> checkIns habit <> [] ->
  (forall day, checkedIn (checkIns habit) day -> 1 < Z.abs (Day now - day)) ->
  needsUpdate now habit = true /\
  fst (rolloverHabit now habit) = updateStreaks now habit /\
  currentStreak (fst (rolloverHabit now habit)) = 0.
Proof.
  intros C W N Far.
  destruct (clockOk_today now C) as [R0 _].
  assert (NU : needsUpdate now habit = true).
  { unfold needsUpdate, rolloverHabit.
    destruct (checkIns habit) as [|e log] eqn:E; [contradiction|].
    rewrite <- E in W, Far |- *.
    destruct (sortDesc (map datePart (checkIns habit))) as [|x rest] eqn:S.
    - exfalso. assert (I : In (datePart e) (sortDesc (map datePart (checkIns habit))))
        by (apply sortDesc_In; rewrite E; now left).
      rewrite S in I. contradiction.
    - assert (I : In x (map datePart (checkIns habit)))
        by (apply sortDesc_In; rewrite S; now left).
      pose proof I as I'. apply in_map_iff in I' as (y & Ey & Iy).
      unfold wellFormedLog in W. rewrite Forall_forall in W. specialize (W y Iy).
      rewrite Ey in W. apply isCalendarDate_spec in W as (d & Fd & ->).
      specialize (Far d I).
      rewrite getTodayDateString_isoDay, getDaysDifference_isoDay
        by (auto using fourDigit_inRange).
      cbn [numGt]. destruct (Z.ltb_spec 1 (Z.abs (Day now - d))); [reflexivity|lia]. }
  split; [exact NU|]. rewrite (rolloverHabit_flagged now habit NU).
  split; [reflexivity|].
  cbn [updateStreaks currentStreak]. apply unchecked_current_zero.
  destruct (isCheckedInToday now habit) eqn:I; [|reflexivity].
  apply isCheckedInToday_In in I. rewrite getTodayDateString_isoDay in I.
  specialize (Far (Day now) I). lia.
Qed.

Lemma rollover_resets_lapsed_habit_witness :
  clockOk jan16 /\ wellFormedLog ["2024-01-13"; "2024-01-14"] /\
  currentStreak (fst (rolloverHabit jan16
    (mkHabit "h2" "Run" ["2024-01-13"; "2024-01-14"] 2 2 "2024-01-13T08:00:00.000Z"))) = 0.
Proof.
  assert (C : clockOk jan16) by (unfold clockOk, jan16, maxTime, msPerDay; lia).
  assert (W : wellFormedLog (checkIns
    (mkHabit "h2" "Run" ["2024-01-13"; "2024-01-14"] 2 2 "2024-01-13T08:00:00.000Z")))
    by (repeat constructor).
  split; [exact C|]. split; [exact W|].
  apply (rollover_resets_lapsed_habit jan16 _ C W).
  - discriminate.
  - intros day [E|[E|[]]].
    + change (datePart "2024-01-13") with (isoDay 19735) in E. symmetry in E.
      apply isoDay_calendar in E; [subst day; vm_compute; reflexivity|].
      unfold fourDigit. rewrite firstDay_value, lastDay_value. lia.
    + change (datePart "2024-01-14") with (isoDay 19736) in E. symmetry in E.
      apply isoDay_calendar in E; [subst day; vm_compute; reflexivity|].
      unfold fourDigit. rewrite firstDay_value, lastDay_value. lia.
Defined.

(** ** Habit management *)

Lemma sortedCheckInsOf_single entry :
  sortedCheckInsOf [entry] = [datePart entry].
Proof.
  unfold sortedCheckInsOf, removeDuplicates. cbn [map filterIndexed].
  unfold indexOf. cbn [indexOfFrom]. rewrite String.eqb_refl. reflexivity.
Qed.

Lemma calculateStreaks_today_only now habit :
  checkIns habit = [getTodayDateString now] ->
  calculateStreaks now habit = mkStreaks 1 1.
Proof.
  intros E. unfold calculateStreaks. rewrite E, sortedCheckInsOf_single.
  rewrite todayString_datePart. unfold streaksOfSorted, isToday.
  rewrite String.eqb_refl. reflexivity.
Qed.

(** X20.  A new habit, checked in once, has the log of today alone and
    both streaks 1, for every clock and name. *)
Theorem first_check_in_of_new_habit (trim : string -> string) (newId : string)
    (now now' : Z) (name0 : string) :
  let habit := toggleHabit now' (createHabit trim newId now name0) in
  checkIns habit = [getTodayDateString now'] /\
  currentStreak habit = 1 /\ longestStreak habit = 1.
Proof.
  cbv zeta.
  assert (E : checkIns (toggleHabit now' (createHabit trim newId now name0))
              = [getTodayDateString now']).
  { destruct (toggleHabit_checkIns now' (createHabit trim newId now name0)) as
      [(pre & x & suf & El & _)|[_ E]].
    - cbn [createHabit checkIns] in El. destruct pre; discriminate.
    - exact E. }
  destruct (toggleHabit_streaks now' (createHabit trim newId now name0)) as [-> ->].
  rewrite (calculateStreaks_today_only _ _ E). now repeat split.
Qed.

Lemma filter_other_ids id0 (hs : list Habit) :
  ~ In id0 (map id hs) ->
  filter (fun h => negb (id h =? id0)%string) hs = hs.
Proof.
  induction hs as [|h hs IH]; intros N; [reflexivity|].
  cbn [filter]. destruct (String.eqb_spec (id h) id0) as [E|_].
  - exfalso. apply N. now left.
  - cbn [negb]. f_equal. apply IH. intros I. apply N. now right.
Qed.

(** X21.  Adding a habit under an id that no habit has and deleting that
    id again gives back the list of habits; a blank name adds nothing,
    and so does not save either. *)
Theorem add_then_delete (trim : string -> string) (newId name0 : string)
    (now now' : Z) (app : App) :
  ~ In newId (map id (habits (state app))) ->
  habits (state (deleteHabit now' newId (addHabit trim newId now name0 app)))
    = habits (state app) /\
  (isBlank trim name0 = true -> addHabit trim newId now name0 app = app) /\
  (isBlank trim name0 = false ->
   habits (state (addHabit trim newId now name0 app))
   = habits (state app) ++ [createHabit trim newId now name0]).
Proof.
  intros N. unfold addHabit. destruct (isBlank trim name0); split.
  - cbn [deleteHabit saveHabitsToStorage setHabits state habits].
    now apply filter_other_ids.
  - split; [reflexivity|discriminate].
  - cbn [deleteHabit saveHabitsToStorage setHabits state habits].
    rewrite filter_app, filter_other_ids by exact N.
    cbn [filter createHabit id]. rewrite String.eqb_refl. cbn [negb].
    apply app_nil_r.
  - split; [discriminate|reflexivity].
Qed.

Lemma add_then_delete_witness :
  ~ In "h9" (map id (habits (state eveningApp))) /\
  habits (state (deleteHabit jan16 "h9"
                   (addHabit (fun s => s) "h9" jan16 "Walk" eveningApp)))
  = habits (state eveningApp).
Proof.
  assert (N : ~ In "h9" (map id (habits (state eveningApp))))
    by (simpl; intuition discriminate).
  split; [exact N|].
  exact (proj1 (add_then_delete (fun s => s) "h9" "Walk" jan16 jan16 eveningApp N)).
Defined.

(** X22.  [deleteHabit] removes every habit with the id, not only the
    first, keeps the others in their order, and always saves. *)
Theorem deleteHabit_removes_the_id (now : Z) (id0 : string) (app : App) :
  let app' := deleteHabit now id0 app in
  ~ In id0 (map id (habits (state app'))) /\
  (forall h, In h (habits (state app')) <->
             In h (habits (state app)) /\ id h <> id0) /\
  (~ In id0 (map id (habits (state app))) ->
   habits (state app') = habits (state app)) /\
  habitTrackerData (localStorage app') = Some (habits (state app')) /\
  habitTrackerLastCheckedDate (localStorage app') = Some (getTodayDateString now).
Proof.
  cbv zeta. unfold deleteHabit.
  cbn [saveHabitsToStorage setHabits state habits localStorage habitTrackerData
       habitTrackerLastCheckedDate].
  split; [|split; [|split; [|split; reflexivity]]].
  - intros I. apply in_map_iff in I as (h & E & I). apply filter_In in I as [_ I].
    rewrite E, String.eqb_refl in I. discriminate.
  - intros h. rewrite filter_In. split; intros [I H]; split; auto.
    + intros E. rewrite E, String.eqb_refl in H. discriminate.
    + now destruct (String.eqb_spec (id h) id0).
  - apply filter_other_ids.
Qed.

Lemma first_with_id_unique id0 (pre : list Habit) : forall pre' h h' suf suf',
  pre ++ h :: suf = pre' ++ h' :: suf' -> id h = id0 -> id h' = id0 ->
  ~ In id0 (map id pre) -> ~ In id0 (map id pre') ->
  pre = pre' /\ h = h' /\ suf = suf'.
Proof.
  induction pre as [|p pre IH]; intros pre' h h' suf suf' E Ei Ei' Np Np'.
  - destruct pre' as [|p' pre']; cbn [List.app] in E.
    + injection E as -> ->. auto.
    + injection E as -> _. exfalso. apply Np'. cbn [map]. now left.
  - destruct pre' as [|p' pre']; cbn [List.app] in E.
    + injection E as -> _. exfalso. apply Np. cbn [map]. now left.
    + injection E as -> E.
      destruct (IH pre' h h' suf suf' E Ei Ei') as (-> & -> & ->); auto.
      * intros C. apply Np. cbn [map]. now right.
      * intros C. apply Np'. cbn [map]. now right.
Qed.

(** X23.  Renaming: [updateHabit] changes only the name of the first
    habit with the id, to the trimmed new name; check-ins, streaks, ids
    and the order of the habits stay.  With a blank name or an unknown id
    it changes nothing and does not save. *)
Theorem updateHabit_changes_name_only (trim : string -> string) (now : Z)
    (id0 newName : string) (app : App) :
  let app' := updateHabit trim now id0 newName app in
  map id (habits (state app')) = map id (habits (state app)) /\
  map checkIns (habits (state app')) = map checkIns (habits (state app)) /\
  map currentStreak (habits (state app')) = map currentStreak (habits (state app)) /\
  map longestStreak (habits (state app')) = map longestStreak (habits (state app)) /\
  (isBlank trim newName = true \/ ~ In id0 (map id (habits (state app))) ->
   app' = app) /\
  (isBlank trim newName = false ->
   forall pre h suf,
     habits (state app) = pre ++ h :: suf -> id h = id0 ->
     ~ In id0 (map id pre) ->
     habits (state app') = pre ++ setName h (trim newName) :: suf).
Proof.
  cbv zeta. unfold updateHabit.
  destruct (isBlank trim newName) eqn:B.
  - repeat split; try reflexivity. discriminate.
  - destruct (onFirst _ id0 (habits (state app))) as [hs|] eqn:E.
    + destruct (onFirst_Some _ _ _ _ E) as (pre & h & suf & El & Ei & Np & ->).
      cbn [saveHabitsToStorage setHabits state habits]. rewrite El.
      rewrite !map_app. cbn [map setName id checkIns currentStreak longestStreak].
      repeat split.
      * intros [C|C]; [discriminate|]. exfalso. apply C.
        apply in_or_app. right. now left.
      * intros _ pre' h' suf' El' Ei' Np'.
        destruct (first_with_id_unique id0 pre pre' h h' suf suf' El' Ei Ei' Np Np')
          as (-> & -> & ->).
        reflexivity.
    + pose proof E as E'. apply onFirst_None in E'.
      repeat split; try reflexivity.
      intros _ pre h suf El Ei _. exfalso. apply E'.
      rewrite El, map_app. cbn [map]. apply in_or_app. right. now left.
Qed.

(** ** What a habit card shows *)

Lemma today_not_Never now : (getTodayDateString now =? "Never")%string = false.
Proof.
  apply String.eqb_neq. rewrite getTodayDateString_isoDay. intros E.
  pose proof (length_isoDay (Day now)) as L. rewrite E in L.
  destruct ((0 <=? YearFromDay (Day now)) && (YearFromDay (Day now) <=? 9999));
    discriminate.
Qed.

Lemma card_today (toLocaleDateString : string -> string) now habit :
  isCheckedInToday now habit = true ->
  (forall d, In d (map datePart (checkIns habit)) ->
             ~ newer d (getTodayDateString now)) ->
  lastCheckInDate habit = getTodayDateString now /\
  formatDateDisplay toLocaleDateString now (lastCheckInDate habit) = "Today".
Proof.
  intros C Old. apply isCheckedInToday_In in C.
  assert (E : lastCheckInDate habit = getTodayDateString now).
  { unfold lastCheckInDate.
    pose proof (sortDesc_sorted (map datePart (checkIns habit))) as S.
    apply sortDesc_In in C.
    destruct (sortDesc (map datePart (checkIns habit))) as [|x rest] eqn:Es;
      [contradiction|].
    assert (Ix : In x (map datePart (checkIns habit)))
      by (apply sortDesc_In; rewrite Es; now left).
    assert (x = getTodayDateString now) as ->.
    { destruct C as [->|C]; [reflexivity|].
      inversion S as [|? ? _ F]; subst. rewrite Forall_forall in F.
      destruct (proj1 (notBefore_cases _ _) (F _ C)) as [->|Nw]; [reflexivity|].
      exfalso. exact (Old x Ix Nw). }
    now rewrite today_not_empty. }
  split; [exact E|].
  rewrite E. unfold formatDateDisplay, isToday.
  now rewrite today_not_Never, String.eqb_refl.
Qed.

(** X24.  A habit with a log of calendar dates, checked in today and
    with no check-in dated after today, shows "Today" as its last
    check-in. *)
Theorem card_shows_today (toLocaleDateString : string -> string) (now : Z)
    (habit : Habit) :
  wellFormedLog (checkIns habit) ->
  isCheckedInToday now habit = true ->
  (forall day, checkedIn (checkIns habit) day -> day <= Day now) ->
  lastCheckInDate habit = getTodayDateString now /\
  formatDateDisplay toLocaleDateString now (lastCheckInDate habit) = "Today".
Proof.
  intros W C Le. apply card_today; [exact C|].
  apply no_later_day_not_newer; [exact W| |exact Le].
  apply isCheckedInToday_In in C. rewrite getTodayDateString_isoDay in C.
  exact (checkedIn_fourDigit _ _ W C).
Qed.

Lemma card_shows_today_witness :
  wellFormedLog ["2024-01-15"; "2024-01-16T09:30:00"] /\
  isCheckedInToday jan16 (habitWithLog ["2024-01-15"; "2024-01-16T09:30:00"]) = true /\
  formatDateDisplay (fun s => s) jan16
    (lastCheckInDate (habitWithLog ["2024-01-15"; "2024-01-16T09:30:00"])) = "Today".
Proof.
  assert (W : wellFormedLog
                (checkIns (habitWithLog ["2024-01-15"; "2024-01-16T09:30:00"])))
    by (repeat constructor).
  assert (C : isCheckedInToday jan16
                (habitWithLog ["2024-01-15"; "2024-01-16T09:30:00"]) = true)
    by reflexivity.
  assert (Le : forall day,
            checkedIn (checkIns (habitWithLog ["2024-01-15"; "2024-01-16T09:30:00"])) day ->
            day <= Day jan16).
  { change (Day jan16) with 19738. intros day [E|[E|[]]].
    - change (datePart "2024-01-15") with (isoDay 19737) in E. symmetry in E.
      apply isoDay_calendar in E; [lia|].
      unfold fourDigit. rewrite firstDay_value, lastDay_value. lia.
    - change (datePart "2024-01-16T09:30:00") with (isoDay 19738) in E. symmetry in E.
      apply isoDay_calendar in E; [lia|].
      unfold fourDigit. rewrite firstDay_value, lastDay_value. lia. }
  split; [exact W|]. split; [exact C|].
  exact (proj2 (card_shows_today (fun s => s) jan16 _ W C Le)).
Defined.

